(** * aladdin_parser: merging generated examples into command help blocks

    A shallow embedding of [scripts/ci/aladdin_parser.py].  Python strings are
    [string]s over 8-bit code points, lists are [list]s, exceptions are the
    [Raises] branch of [result], the ordered [defaultdict(list)] built by
    [format_examples] is an association list in insertion order, and the
    dictionary of generated helps is a [gmap].  The file handle that [merge]
    reads is the list of lines still unread; its loops are a step function,
    so that a loop which never leaves is visible as such.  [print] calls
    produce no value used later and are left out. *)

From Stdlib Require Import Ascii String.
From stdpp Require Import base option list sorting strings gmap.

Local Open Scope string_scope.
Local Open Scope nat_scope.
Local Open Scope list_scope.

(** ** Exceptions and results *)

Inductive exn : Set :=
  | ValueError        (* str.index, shlex.split *)
  | IndexError        (* list indexing *)
  | AttributeError    (* method call on the None of a failed re.search *)
  | YAMLError.        (* anything the YAML loader raises *)

Inductive result (A : Type) : Type :=
  | Returns (a : A)
  | Raises (e : exn).
Arguments Returns {A} a.
Arguments Raises {A} e.

#[global] Instance result_ret : MRet result := fun A a => Returns a.
#[global] Instance result_bind : MBind result := fun A B k r =>
  match r with
  | Returns a => k a
  | Raises e => Raises e
  end.

Definition or_raise {A} (e : exn) (o : option A) : result A :=
  match o with
  | Some a => Returns a
  | None => Raises e
  end.


(** ** Python string operations *)

Module Py.

Definition nl : string := String "010"%char "".
Definition dq : string := String "034"%char "".
Definition bs : string := String "092"%char "".

Definition len (s : string) : nat := String.length s.

(** [s.startswith(p)] *)
Definition startswith (s p : string) : bool := String.prefix p s.

(** [s.endswith(p)] *)
Fixpoint endswith (s p : string) : bool :=
  if String.eqb s p then true
  else match s with
       | EmptyString => false
       | String _ s' => endswith s' p
       end.

(** [p in s] *)
Fixpoint contains (s p : string) : bool :=
  if String.prefix p s then true
  else match s with
       | EmptyString => false
       | String _ s' => contains s' p
       end.

(** [s.find(p)]: offset of the first occurrence *)
Fixpoint find (s p : string) : option nat :=
  if String.prefix p s then Some 0
  else match s with
       | EmptyString => None
       | String _ s' => S <$> find s' p
       end.

(** [s.index(p)] *)
Definition index (s p : string) : result nat := or_raise ValueError (find s p).

(** [s[n:]] *)
Fixpoint slice_from (n : nat) (s : string) : string :=
  match n, s with
  | 0, _ => s
  | S n', String _ s' => slice_from n' s'
  | S _, EmptyString => EmptyString
  end.

(** [s[:n]] *)
Fixpoint slice_to (n : nat) (s : string) : string :=
  match n, s with
  | S n', String c s' => String c (slice_to n' s')
  | _, _ => EmptyString
  end.

(** [c.isspace()] on code points below 256 *)
Definition isspace (c : ascii) : bool :=
  let n := nat_of_ascii c in
  ((9 <=? n) && (n <=? 13)) || ((28 <=? n) && (n <=? 32))
  || (n =? 133) || (n =? 160).

Fixpoint lstrip (s : string) : string :=
  match s with
  | String c s' => if isspace c then lstrip s' else s
  | EmptyString => EmptyString
  end.

Fixpoint rstrip (s : string) : string :=
  match s with
  | String c s' =>
      match rstrip s' with
      | EmptyString => if isspace c then EmptyString else String c EmptyString
      | r => String c r
      end
  | EmptyString => EmptyString
  end.

(** [s.strip()] *)
Definition strip (s : string) : string := rstrip (lstrip s).

(** [s.replace('\\', '\\\\')]: every backslash is doubled *)
Fixpoint escape_backslashes (s : string) : string :=
  match s with
  | String c s' =>
      if Ascii.eqb c "092" then String c (String c (escape_backslashes s'))
      else String c (escape_backslashes s')
  | EmptyString => EmptyString
  end.

(** [s.split(' ')]: pieces between single spaces, empty pieces kept *)
Fixpoint split_space (s : string) : list string :=
  match s with
  | EmptyString => [EmptyString]
  | String c s' =>
      if Ascii.eqb c " " then EmptyString :: split_space s'
      else match split_space s' with
           | w :: ws => String c w :: ws
           | [] => [String c EmptyString]
           end
  end.

(** [' ' * n] *)
Fixpoint spaces (n : nat) : string :=
  match n with
  | 0 => EmptyString
  | S n' => String " " (spaces n')
  end.

(** [''.join(pieces)] *)
Fixpoint join (pieces : list string) : string :=
  match pieces with
  | [] => EmptyString
  | p :: rest => p +:+ join rest
  end.

(** The lines a text file yields when iterated: each one up to and
    including its newline, the last one possibly without. *)
Fixpoint readlines (s : string) : list string :=
  match s with
  | EmptyString => []
  | String c s' =>
      if Ascii.eqb c "010" then String c EmptyString :: readlines s'
      else match readlines s' with
           | l :: ls => String c l :: ls
           | [] => [String c EmptyString]
           end
  end.

(** [re.search(r'[^ ]', s)], answering the match's [start()] *)
Fixpoint search_non_space (s : string) : option nat :=
  match s with
  | EmptyString => None
  | String c s' => if Ascii.eqb c " " then S <$> search_non_space s' else Some 0
  end.

End Py.

(** ** [shlex.split]

    The lexer of the standard library in the configuration [shlex.split]
    sets up: POSIX mode, [whitespace_split], no comment characters and no
    punctuation characters.  The lexer's [state] attribute is [lex_state];
    while it holds the escape character, [escapedstate] is either the word
    state or the quote that was open, which [Escape] carries. *)

Module Shlex.

Inductive lex_state : Set :=
  | Ws                            (* ' ' *)
  | Word                          (* 'a' *)
  | Quote (q : ascii)             (* the quote that is open *)
  | Escape (back : option ascii). (* escape seen; [Some q]: inside quote q *)

Definition whitespace (c : ascii) : bool :=
  Ascii.eqb c " " || Ascii.eqb c "009" || Ascii.eqb c "013" || Ascii.eqb c "010".
Definition is_quote (c : ascii) : bool := Ascii.eqb c "'" || Ascii.eqb c "034".
Definition is_escape (c : ascii) : bool := Ascii.eqb c "092".
Definition escapedquote (q : ascii) : bool := Ascii.eqb q "034".

Definition nonempty (s : string) : bool :=
  match s with EmptyString => false | _ => true end.

Definition push (token : string) (c : ascii) : string :=
  token +:+ String c EmptyString.

Definition emit (token : string) (k : result (list string)) : result (list string) :=
  rest ← k; mret (token :: rest).

(** All calls of [read_token] in a row: [quoted] and [token] start afresh
    after each token handed out. *)
Fixpoint tokens (s : string) (st : lex_state) (quoted : bool) (token : string)
  : result (list string) :=
  match s with
  | EmptyString =>
      match st with
      | Ws | Word =>
          if nonempty token || quoted then Returns [token] else Returns []
      | Quote _ => Raises ValueError      (* No closing quotation *)
      | Escape _ => Raises ValueError     (* No escaped character *)
      end
  | String c s' =>
      match st with
      | Ws =>
          if whitespace c then
            if nonempty token || quoted then emit token (tokens s' Ws false "")
            else tokens s' Ws quoted token
          else if is_escape c then tokens s' (Escape None) quoted token
          else if is_quote c then tokens s' (Quote c) quoted token
          else tokens s' Word quoted (String c EmptyString)
      | Quote q =>
          if Ascii.eqb c q then tokens s' Word true token
          else if is_escape c && escapedquote q then tokens s' (Escape (Some q)) true token
          else tokens s' (Quote q) true (push token c)
      | Escape back =>
          match back with
          | Some q =>
              let token := if negb (is_escape c) && negb (Ascii.eqb c q)
                           then push token "092" else token in
              tokens s' (Quote q) quoted (push token c)
          | None => tokens s' Word quoted (push token c)
          end
      | Word =>
          if whitespace c then
            if nonempty token || quoted then emit token (tokens s' Ws false "")
            else tokens s' Ws quoted token
          else if is_quote c then tokens s' (Quote c) quoted token
          else if is_escape c then tokens s' (Escape None) quoted token
          else tokens s' Word quoted (push token c)
      end
  end.

Definition split (s : string) : result (list string) := tokens s Ws false "".

End Shlex.

(** ** Data model *)

(** An example entry: [ex['name']], [ex['text']], and whether the key
    ['crafted'] is present. *)
Record example : Set := Example_
  { name : string; text : string; crafted : bool }.

(** A parsed help document, as far as the script looks into it:
    [doc.get('examples')]. *)
Record help_doc : Set := HelpDoc { examples : option (list example) }.

#[global] Instance example_eq_dec : EqDecision example.
Proof. solve_decision. Defined.

(** A tuple of parameter names, the key of the grouping. *)
Abbreviation signature := (list string) (only parsing).

(** The [defaultdict(list)] of [format_examples], in insertion order. *)
Abbreviation grouping := (list (signature * list example)) (only parsing).

(** [formatted[key].append(example)] *)
Fixpoint dict_append (formatted : grouping) (key : signature) (ex : example) : grouping :=
  match formatted with
  | [] => [(key, [ex])]
  | (k, exs) :: rest =>
      if decide (k = key) then (k, exs ++ [ex]) :: rest
      else (k, exs) :: dict_append rest key ex
  end.

(** [key in formatted] *)
Definition dict_mem (key : signature) (formatted : grouping) : bool :=
  bool_decide (key ∈ formatted.*1).

(** ** [format_examples] *)

(** [parameter_names.sort()]: [str] is ordered code point by code point,
    which is [String.le]. *)
Definition sort_names (names : list string) : list string :=
  merge_sort String.le names.

(** The body of the loop of [format_examples]: the sorted parameter names
    of one example text. *)
Definition parameter_names (cmd text : string) : result signature :=
  i ← Py.index text cmd;
  let command_line := Py.slice_from i text in
  j ← Py.index command_line cmd;
  let parameter_section := Py.slice_from (j + Py.len cmd) command_line in
  parameter_section ← Shlex.split parameter_section;
  let parameter_names :=
    Py.strip <$> filter (λ p, Py.startswith p "--") parameter_section in
  mret (sort_names parameter_names).

Fixpoint format_examples_from (cmd : string) (examples : list example)
    (formatted : grouping) : result grouping :=
  match examples with
  | [] => Returns formatted
  | example :: rest =>
      names ← parameter_names cmd (text example);
      format_examples_from cmd rest (dict_append formatted names example)
  end.

Definition format_examples (cmd : string) (examples : list example) : result grouping :=
  format_examples_from cmd examples [].

(** ** [calculate_example_yaml_indent] *)

(** [l[i]] for [i >= 0] *)
Definition list_get {A} (l : list A) (i : nat) : result A := or_raise IndexError (l !! i).

(** The [for idx, s in enumerate(raw_cli_help)] loop with its [break]: the
    first line that starts with [examples] once stripped, with its index. *)
Fixpoint find_examples_line (lines : list string) (idx : nat) : option (nat * string) :=
  match lines with
  | [] => None
  | s :: rest =>
      if Py.startswith (Py.strip s) "examples" then Some (idx, s)
      else find_examples_line rest (S idx)
  end.

(** [re.search(r'[^ ]', key).start()], a method call on [None] when nothing
    matches. *)
Definition indent_width (key : string) : result nat :=
  or_raise AttributeError (Py.search_non_space key).

Definition calculate_example_yaml_indent (raw_cli_help : list string)
  : result (string * string) :=
  first ← list_get raw_cli_help 0;
  let '(yaml_indent_idx, yaml_indent_key) :=
    default (0, first) (find_examples_line raw_cli_help 0) in
  width ← indent_width yaml_indent_key;
  let preceding_indent := Py.slice_to width yaml_indent_key in
  if Py.contains yaml_indent_key "examples" then
    yaml_indent_key ← list_get raw_cli_help (yaml_indent_idx + 1);
    width ← indent_width yaml_indent_key;
    mret (preceding_indent, Py.slice_to width yaml_indent_key)
  else
    mret (preceding_indent, preceding_indent +:+ Py.spaces 2).

(** ** [write_examples] *)

Section Templates.
Variable example_inner_indent : string.

Definition two_space : string := "  ".
Definition name_tpl (name : string) : string :=
  example_inner_indent +:+ "- name: " +:+ name +:+ Py.nl.
Definition text_tpl : string :=
  example_inner_indent +:+ two_space +:+ "text: |" +:+ Py.nl.
Definition crafted_tpl : string :=
  Py.nl +:+ example_inner_indent +:+ two_space +:+ "crafted: true".
Definition cmd_tpl (cmd : string) : string :=
  example_inner_indent +:+ Py.spaces 6 +:+ "az " +:+ cmd.
(** The continuation marker: a space, two backslashes, a newline. *)
Definition continuation : string := " " +:+ Py.bs +:+ Py.bs +:+ Py.nl.
Definition opt_tpl (p : string) : string :=
  continuation +:+ example_inner_indent +:+ Py.spaces 6 +:+ p.
Definition val_tpl (p : string) : string := " " +:+ p.

(** The parameter string of an example: backslashes doubled, the text up
    to and including the command cut off, the rest stripped. *)
Definition parameters_of (cmd : string) (ex : example) : result string :=
  let parameters := Py.escape_backslashes (text ex) in
  i ← Py.index parameters cmd;
  mret (Py.strip (Py.slice_from (i + Py.len cmd) parameters)).

(** One round of [for p in parameters.split(' ')]. *)
Definition write_parameter (buffer : list string) (p : string) : list string :=
  if Py.startswith p "--" then buffer ++ [opt_tpl p] else buffer ++ [val_tpl p].

Fixpoint write_examples (cmd : string) (examples : list example)
    (buffer : list string) : result (list string) :=
  match examples with
  | [] => Returns buffer
  | ex :: rest =>
      let buffer := buffer ++ [name_tpl (name ex)] in
      let buffer := buffer ++ [text_tpl] in
      let buffer := buffer ++ [cmd_tpl cmd] in
      parameters ← parameters_of cmd ex;
      let buffer :=
        if Py.len parameters + Py.len example_inner_indent <? 80
        then buffer ++ [" " +:+ parameters]
        else foldl write_parameter buffer (Py.split_space parameters) in
      let buffer := if crafted ex then buffer ++ [crafted_tpl] else buffer in
      write_examples cmd rest (buffer ++ [Py.nl])
  end.
End Templates.

(** ** [merge_examples] *)

Section Merge.
(** [next(yaml.load_all(text))], seen through the one access the script
    makes to the document; a loader that fails raises. *)
Variable yaml_load : string -> result help_doc.

Fixpoint merge_examples_loop (cmd : string)
    (formatted_cli_examples formatted_aladdin_examples : grouping)
    (items : grouping) (preceding_indent example_inner_indent : string)
    (yaml_example_key_written : bool) (buffer : list string)
  : result (list string) :=
  match items with
  | [] => Returns buffer
  | (parameter_seq, examples) :: rest =>
      if dict_mem parameter_seq formatted_cli_examples then
        merge_examples_loop cmd formatted_cli_examples formatted_aladdin_examples
          rest preceding_indent example_inner_indent yaml_example_key_written buffer
      else
        let '(buffer, written) :=
          if negb yaml_example_key_written
             && negb (bool_decide (formatted_aladdin_examples = []))
             && bool_decide (formatted_cli_examples = [])
          then (buffer ++ [preceding_indent +:+ "examples:" +:+ Py.nl], true)
          else (buffer, yaml_example_key_written) in
        buffer ← write_examples example_inner_indent cmd examples buffer;
        merge_examples_loop cmd formatted_cli_examples formatted_aladdin_examples
          rest preceding_indent example_inner_indent written buffer
  end.

(** The buffer is passed in and handed back with what was appended. *)
Definition merge_examples (cmd : string) (raw_cli_help : list string)
    (aladdin_help : help_doc) (buffer : list string) : result (list string) :=
  yaml_cli_help ← yaml_load (Py.join raw_cli_help);
  let cli_examples := examples yaml_cli_help in
  match examples aladdin_help with
  | None => Returns buffer
  | Some aladdin_examples =>
      formatted_cli_examples ← format_examples cmd (default [] cli_examples);
      formatted_aladdin_examples ← format_examples cmd aladdin_examples;
      '(preceding_indent, example_inner_indent) ←
        calculate_example_yaml_indent raw_cli_help;
      merge_examples_loop cmd formatted_cli_examples formatted_aladdin_examples
        formatted_aladdin_examples preceding_indent example_inner_indent false buffer
  end.
End Merge.

(** ** [merge] *)

(** The closing marker the inner loop looks for: three double quotes and a
    newline. *)
Definition closing : string := Py.dq +:+ Py.dq +:+ Py.dq +:+ Py.nl.

Definition helps_open : string := "helps['".
Definition helps_close : string := "'] = " +:+ closing.

(** The lazy group of the pattern followed by the rest of the pattern: the
    fewest characters other than newline after which [helps_close] follows. *)
Fixpoint lazy_group (s : string) : option string :=
  if String.prefix helps_close s then Some EmptyString
  else match s with
       | EmptyString => None
       | String c s' =>
           if Ascii.eqb c "010" then None else String c <$> lazy_group s'
       end.

(** [re.search] of the block-start pattern ([helps_open], a lazy group of
    characters other than newline, [helps_close]) in [line], answering
    [groups()[0]]: the leftmost start at which the pattern matches. *)
Fixpoint search_helps (line : string) : option string :=
  match (if String.prefix helps_open line
         then lazy_group (Py.slice_from (Py.len helps_open) line) else None) with
  | Some g => Some g
  | None =>
      match line with
      | EmptyString => None
      | String _ line' => search_helps line'
      end
  end.

(** Where [merge] stands: in the [for line in f] loop, or in the [while]
    loop that reads a block, with the locals of that loop. *)
Inductive position : Type :=
  | Outer
  | Inner (cmd : string) (raw_yaml_body : list string) (line : string).

Record state : Type := State
  { file : list string;        (* the lines not read yet *)
    buffer : list string;
    at_ : position }.

(** [f.readline()]: the empty string at end of file. *)
Definition readline (f : list string) : string * list string :=
  match f with
  | [] => (EmptyString, [])
  | line :: rest => (line, rest)
  end.

Section MergeFile.
Variable yaml_load : string -> result help_doc.
Variable aladdin_generated_helps : gmap string help_doc.

(** One round of whichever loop [merge] is in; [inr] when the [for] loop
    is over (the buffer is what [writelines] puts in the file) or an
    exception leaves the function. *)
Definition step (st : state) : state + result (list string) :=
  match at_ st with
  | Outer =>
      match file st with
      | [] => inr (Returns (buffer st))
      | line :: rest =>
          if negb (Py.startswith line helps_open) then
            inl (State rest (buffer st ++ [line]) Outer)
          else
            match search_helps line with
            | None => inr (Raises AttributeError)
            | Some g =>
                let cmd := Py.strip g in
                let '(line', rest') := readline rest in
                inl (State rest' (buffer st ++ [line]) (Inner cmd [] line'))
            end
      end
  | Inner cmd raw_yaml_body line =>
      if negb (Py.endswith line closing) then
        let '(line', rest') := readline (file st) in
        inl (State rest' (buffer st) (Inner cmd (raw_yaml_body ++ [line]) line'))
      else
        let buffer := buffer st ++ raw_yaml_body in
        match aladdin_generated_helps !! cmd with
        | Some aladdin_help =>
            match merge_examples yaml_load cmd raw_yaml_body aladdin_help buffer with
            | Returns buffer => inl (State (file st) (buffer ++ [line]) Outer)
            | Raises e => inr (Raises e)
            end
        | None => inl (State (file st) (buffer ++ [line]) Outer)
        end
  end.

(** Runs of [merge]: [runs st r] when the loops, started in [st], come to
    an end with [r]. *)
Inductive runs : state -> result (list string) -> Prop :=
  | runs_done st r : step st = inr r -> runs st r
  | runs_step st st' r : step st = inl st' -> runs st' r -> runs st r.

(** The same with a bound on the number of rounds, to compute with. *)
Fixpoint run (fuel : nat) (st : state) : option (result (list string)) :=
  match fuel with
  | 0 => None
  | S fuel =>
      match step st with
      | inr r => Some r
      | inl st' => run fuel st'
      end
  end.

Definition start (lines : list string) : state := State lines [] Outer.

(** [merge] on a help file with these lines ends with [r]. *)
Definition merge (lines : list string) (r : result (list string)) : Prop :=
  runs (start lines) r.

Definition diverges (st : state) : Prop := ∀ r, ¬ runs st r.
End MergeFile.

(** ** A loader for the fragment of YAML the help blocks are written in

    The theorems below hold for whatever loader is plugged in.  To run the
    script on concrete blocks, [Yaml.load] reads the following fragment the
    way PyYAML does, and raises on every text outside of it (where PyYAML
    may well succeed):
    - a mapping of one-line entries [key: value], all at the indentation of
      the first line, with keys of lower-case letters and dashes and plain
      values;
    - at most one entry [examples:] with nothing after the colon, followed by
      a block sequence of entries [- name: ...], [text: |] with its literal
      block, and optionally [crafted: true];
    - no blank lines, no tabs, no comments, no quoting, no flow syntax. *)

Module Yaml.

Definition code (c : ascii) : nat := nat_of_ascii c.
Definition printable (c : ascii) : bool := (32 <=? code c) && (code c <=? 126).
Definition lower (c : ascii) : bool := (97 <=? code c) && (code c <=? 122).
Definition letter (c : ascii) : bool :=
  lower c || ((65 <=? code c) && (code c <=? 90)).
Definition digit (c : ascii) : bool := (48 <=? code c) && (code c <=? 57).
Definition plain_char (c : ascii) : bool :=
  letter c || digit c || Ascii.eqb c " " || Ascii.eqb c "-" || Ascii.eqb c "_"
  || Ascii.eqb c "." || Ascii.eqb c "/".

Fixpoint all_chars (p : ascii -> bool) (s : string) : bool :=
  match s with
  | EmptyString => true
  | String c s' => p c && all_chars p s'
  end.

Definition first_char (p : ascii -> bool) (s : string) : bool :=
  match s with
  | EmptyString => false
  | String c _ => p c
  end.

(** A one-line plain scalar that starts with a letter, has no trailing
    space and none of the characters YAML gives a meaning to. *)
Definition plain (s : string) : bool :=
  first_char letter s && all_chars plain_char s
  && negb (Py.endswith s " ").

(** The plain scalars PyYAML resolves to a boolean or to null. *)
Definition resolved : list string :=
  ["yes"; "Yes"; "YES"; "no"; "No"; "NO"; "true"; "True"; "TRUE";
   "false"; "False"; "FALSE"; "on"; "On"; "ON"; "off"; "Off"; "OFF";
   "null"; "Null"; "NULL"].

(** A plain scalar that is loaded as a [str]. *)
Definition plain_str (s : string) : bool :=
  plain s && negb (bool_decide (s ∈ resolved)).

Definition key_name (s : string) : bool :=
  first_char lower s && all_chars (λ c, lower c || Ascii.eqb c "-") s.

(** A line as its indentation and what follows; blank lines are outside
    the fragment. *)
Definition parse_line (s : string) : result (nat * string) :=
  w ← or_raise YAMLError (Py.search_non_space s);
  mret (w, Py.slice_from w s).

(** The lines of a text: what lies between newlines, without a last
    empty piece. *)
Definition lines_of (s : string) : list string :=
  (λ l, if Py.endswith l Py.nl then Py.slice_to (Py.len l - 1) l else l)
    <$> Py.readlines s.

(** The content lines of a literal block indented by [c]. *)
Fixpoint take_block (c : nat) (ls : list (nat * string))
  : list string * list (nat * string) :=
  match ls with
  | (n, b) :: rest =>
      if c <=? n then
        let '(block, rest') := take_block c rest in
        ((Py.spaces (n - c) +:+ b) :: block, rest')
      else ([], ls)
  | [] => ([], [])
  end.

(** The entries of a block sequence whose dashes stand at column [i]. *)
Fixpoint parse_items (fuel i : nat) (ls : list (nat * string))
  : result (list example * list (nat * string)) :=
  match fuel, ls with
  | S fuel, (n, b) :: (n2, b2) :: (c, b3) :: rest =>
      if (n =? i) && Py.startswith b "- " then
        let nm := Py.slice_from 8 b in
        if Py.startswith b "- name: " && plain_str nm
           && (n2 =? i + 2) && String.eqb b2 "text: |" && (i + 2 <? c)
        then
          let '(block, rest) := take_block c ((c, b3) :: rest) in
          if forallb (all_chars printable) block then
            let txt := Py.join ((λ l, l +:+ Py.nl) <$> block) in
            let '(crafted, rest) :=
              match rest with
              | (n4, b4) :: rest' =>
                  if (n4 =? i + 2) && String.eqb b4 "crafted: true"
                  then (true, rest') else (false, rest)
              | [] => (false, rest)
              end in
            '(exs, rest) ← parse_items fuel i rest;
            mret (Example_ nm txt crafted :: exs, rest)
          else Raises YAMLError
        else Raises YAMLError
      else Returns ([], ls)
  | S _, (n, b) :: _ =>
      if (n =? i) && Py.startswith b "- " then Raises YAMLError
      else Returns ([], ls)
  | S _, [] => Returns ([], [])
  | 0, _ => Raises YAMLError
  end.

(** [key: value] cut at the first colon followed by a space. *)
Definition split_entry (b : string) : option (string * string) :=
  i ← Py.find b ": ";
  Some (Py.slice_to i b, Py.slice_from (i + 2) b).

(** The entries of the top-level mapping at column [k0]; [seen] is the
    value of the [examples] entry once met. *)
Fixpoint parse_top (fuel k0 : nat) (ls : list (nat * string))
    (seen : option (list example)) (met : bool) : result help_doc :=
  match fuel, ls with
  | _, [] => Returns (HelpDoc seen)
  | 0, _ => Raises YAMLError
  | S fuel, (n, b) :: rest =>
      if negb (n =? k0) then Raises YAMLError
      else if String.eqb b "examples:" then
        if met then Raises YAMLError
        else
          match rest with
          | (i, b') :: _ =>
              if (k0 <=? i) && Py.startswith b' "- " then
                '(exs, rest) ← parse_items (S (length rest)) i rest;
                parse_top fuel k0 rest (Some exs) true
              else parse_top fuel k0 rest None true
          | [] => Returns (HelpDoc None)
          end
      else
        match split_entry b with
        | Some (k, v) =>
            if key_name k && negb (String.eqb k "examples") && plain v
            then parse_top fuel k0 rest seen met
            else Raises YAMLError
        | None => Raises YAMLError
        end
  end.

Definition load (s : string) : result help_doc :=
  ls ← mapM parse_line (lines_of s);
  match ls with
  | [] => Raises YAMLError
  | (k0, _) :: _ => parse_top (S (length ls)) k0 ls None false
  end.

End Yaml.

(** * Notions the properties are stated with *)

(** ** Strings and lines *)

(** [p] occurs in [s]. *)
Definition occurs (p s : string) : Prop := ∃ pre post, s = pre +:+ p +:+ post.

(** A string that consists of spaces only (the empty string included). *)
Definition blank (s : string) : Prop := s = Py.spaces (Py.len s).

(** The indentation of a line: its leading spaces. *)
Fixpoint indentation (s : string) : string :=
  match s with
  | String c s' => if Ascii.eqb c " " then String c (indentation s') else EmptyString
  | EmptyString => EmptyString
  end.

(** The key line [calculate_example_yaml_indent] settles on before it looks
    at indentation, with its index: the first line that starts with
    [examples] once stripped, else the first line. *)
Definition chosen_line (raw : list string) : option (nat * string) :=
  first ← raw !! 0;
  Some (default (0, first) (find_examples_line raw 0)).

(** ** Rendering *)

(** What one round of the parameter loop appends for the piece [p]. *)
Definition piece (inner p : string) : string :=
  if Py.startswith p "--" then opt_tpl inner p else val_tpl p.

(** The two forms of an invocation's parameters in the buffer. *)
Definition one_line (parameters : string) : list string := [" " +:+ parameters].
Definition wrapped (inner parameters : string) : list string :=
  piece inner <$> Py.split_space parameters.

(** What [write_examples] appends for one example. *)
Definition rendered_example (inner cmd : string) (ex : example) : result (list string) :=
  parameters ← parameters_of cmd ex;
  mret ([name_tpl inner (name ex); text_tpl inner; cmd_tpl inner cmd]
        ++ (if Py.len parameters + Py.len inner <? 80
            then one_line parameters else wrapped inner parameters)
        ++ (if crafted ex then [crafted_tpl inner] else [])
        ++ [Py.nl]).

(** What [write_examples] appends for a group of examples. *)
Definition render_group (inner cmd : string) (exs : list example) : result (list string) :=
  pieces ← mapM (rendered_example inner cmd) exs; mret (concat pieces).



(** ** Signatures and groups *)

#[global] Instance exn_eq_dec : EqDecision exn.
Proof. solve_decision. Defined.

#[global] Instance result_eq_dec `{EqDecision A} : EqDecision (result A).
Proof. solve_decision. Defined.

(** The signature of [ex] is defined and satisfies [P]. *)
Definition signature_in (cmd : string) (P : signature → Prop) (ex : example) : Prop :=
  match parameter_names cmd (text ex) with
  | Returns names => P names
  | Raises _ => False
  end.

#[global] Instance signature_in_dec cmd P `{∀ names, Decision (P names)} ex :
  Decision (signature_in cmd P ex).
Proof. unfold signature_in. destruct (parameter_names _ _); apply _. Defined.

(** Some existing example has the signature [names]. *)
Definition known (cmd : string) (existing : list example) (names : signature) : Prop :=
  Exists (λ old, parameter_names cmd (text old) = Returns names) existing.

#[global] Instance known_dec cmd existing names : Decision (known cmd existing names).
Proof. unfold known. apply _. Defined.

(** The groups of generated examples whose signature is not a key of the
    grouping of the existing ones. *)
Definition fresh (cli items : grouping) : grouping :=
  filter (λ g, g.1 ∉ cli.*1) items.

Definition examples_key (preceding_indent : string) : string :=
  preceding_indent +:+ "examples:" +:+ Py.nl.

(** ** Blocks and files *)


(** A line that ends a block. *)
Definition is_closing (line : string) : Prop := Py.endswith line closing = true.

(** A line at which the [for] loop starts to read a block. *)
Definition block_start (line : string) : Prop :=
  Py.startswith line helps_open = true ∧ is_Some (search_helps line).

(** Every block start is followed by a closing line. *)
Definition well_closed (lines : list string) : Prop :=
  ∀ pre line post,
    lines = pre ++ line :: post → block_start line → Exists is_closing post.


(** A text that is empty or ends with a newline. *)
Definition ends_nl (s : string) : Prop := s = "" ∨ ∃ t, s = t +:+ Py.nl.


(** The lines a text file is made of: each one ends with its only newline,
    but for the last one, which may have none. *)
Fixpoint no_newline (s : string) : bool :=
  match s with
  | EmptyString => true
  | String c s' => negb (Ascii.eqb c "010") && no_newline s'
  end.

Definition full_line (l : string) : Prop :=
  ∃ body, l = body +:+ Py.nl ∧ no_newline body = true.



Section Reach.
Context (yaml_load : string → result help_doc) (helps : gmap string help_doc).

(** [st'] is reached from [st] by rounds of the loops. *)
Inductive steps : state → state → Prop :=
  | steps_refl st : steps st st
  | steps_step st st' st'' : step yaml_load helps st = inl st' → steps st' st'' → steps st st''.
End Reach.



(** ** Notions for the further properties *)

(** The keys of a list in the order in which they are first met. *)
Definition first_seen (keys : list (list string)) : list (list string) :=
  foldl (λ seen k, if decide (k ∈ seen) then seen else seen ++ [k]) [] keys.

(** [formatted.get(key)] *)
Fixpoint dict_get (formatted : list (list string * list example)) (key : list string)
  : option (list example) :=
  match formatted with
  | [] => None
  | (k, exs) :: rest => if decide (k = key) then Some exs else dict_get rest key
  end.

(** The examples with the signature [key], in the order of the list. *)
Definition with_signature (cmd : string) (key : list string) (exs : list example)
  : list example :=
  filter (λ ex, parameter_names cmd (text ex) = Returns key) exs.

(** A character that neither separates words for the lexer nor quotes nor
    escapes, and that [strip] leaves alone. *)
Definition word_char (c : ascii) : bool :=
  negb (Py.isspace c) && negb (Shlex.whitespace c)
  && negb (Shlex.is_quote c) && negb (Shlex.is_escape c).

(** A non-empty word of such characters. *)
Definition plain_word (w : string) : Prop :=
  w ≠ "" ∧ Yaml.all_chars word_char w = true.

(** Words after single spaces: [' a b c']. *)
Definition spaced (ws : list string) : string := Py.join ((λ w, " " +:+ w) <$> ws).

(** A character that opens no quote and escapes nothing. *)
Definition unquoted_char (c : ascii) : bool :=
  negb (Shlex.is_quote c) && negb (Shlex.is_escape c).

(** A string without a backslash. *)
Definition no_backslash (s : string) : Prop :=
  Yaml.all_chars (λ c, negb (Ascii.eqb c "092")) s = true.

(** The help of the commands that a state is in a block of, or has still
    to read the block of, is the same in both collections. *)
Definition agree_on (helps1 helps2 : gmap string help_doc) (st : state) : Prop :=
  (∀ line g, line ∈ file st → Py.startswith line helps_open = true →
             search_helps line = Some g →
             helps1 !! Py.strip g = helps2 !! Py.strip g)
  ∧ (∀ cmd raw line, at_ st = Inner cmd raw line → helps1 !! cmd = helps2 !! cmd).

(** * Properties *)

(** ** The string operations on small inputs *)

Example split_space_ex :
  Py.split_space "--name x  y" = ["--name"; "x"; ""; "y"].
Proof. reflexivity. Qed.

Example readlines_ex :
  Py.readlines ("a" +:+ Py.nl +:+ Py.nl +:+ "b") = ["a" +:+ Py.nl; Py.nl; "b"].
Proof. reflexivity. Qed.

Example strip_ex : Py.strip ("  examples: " +:+ Py.nl) = "examples:".
Proof. reflexivity. Qed.

Example shlex_ex1 :
  Shlex.split (" --name 'my vm'  -g  rg --tags " +:+ Py.dq +:+ "a b" +:+ Py.dq)
  = Returns ["--name"; "my vm"; "-g"; "rg"; "--tags"; "a b"].
Proof. reflexivity. Qed.

Example shlex_ex2 : Shlex.split " --name 'my vm" = Raises ValueError.
Proof. reflexivity. Qed.

Example shlex_ex3 : Shlex.split (" --na" +:+ Py.bs +:+ "me x") = Returns ["--name"; "x"].
Proof. reflexivity. Qed.

(** Empty quoted words, an escaped quote inside double quotes, a backslash
    kept before a letter inside double quotes, an escaped newline. *)
Example shlex_ex4 :
  Shlex.split (" " +:+ Py.dq +:+ Py.dq +:+ " x '' "
               +:+ Py.dq +:+ "a" +:+ Py.bs +:+ Py.dq +:+ "b" +:+ Py.dq +:+ " "
               +:+ Py.dq +:+ "a" +:+ Py.bs +:+ "nb" +:+ Py.dq +:+ " "
               +:+ Py.bs +:+ Py.nl +:+ " y")
  = Returns [""; "x"; ""; "a" +:+ Py.dq +:+ "b"; "a" +:+ Py.bs +:+ "nb"; Py.nl; "y"].
Proof. reflexivity. Qed.

Example parameter_names_ex :
  parameter_names "vm create" "az vm create --name x -g rg --image y"
  = Returns ["--image"; "--name"].
Proof. vm_compute. reflexivity. Qed.

(** ** Strings *)

Lemma app_cons c s t : String c s +:+ t = String c (s +:+ t).
Proof. done. Qed.

Lemma app_nil_l t : "" +:+ t = t.
Proof. done. Qed.

Lemma prefix_spec p s : String.prefix p s = true ↔ ∃ post, s = p +:+ post.
Proof.
  revert s. induction p as [|c p IH]; intros s; simpl.
  - split; [intros _; exists s; by destruct s | by destruct s].
  - destruct s as [|d s]; simpl.
    + split; [done | by intros [post ?]].
    + destruct (ascii_dec c d) as [->|Hne].
      * rewrite IH. split; intros [post Heq]; exists post;
          rewrite app_cons in *; congruence.
      * split; [done | intros [post Heq]; rewrite app_cons in Heq; congruence].
Qed.

Lemma occurs_nil p : occurs p "" ↔ String.prefix p "" = true.
Proof.
  rewrite prefix_spec. split.
  - intros (pre & post & Heq). destruct pre; [|done]. by exists post.
  - intros [post ->]. by exists "", post.
Qed.

Lemma occurs_cons p c s :
  occurs p (String c s) ↔ String.prefix p (String c s) = true ∨ occurs p s.
Proof.
  rewrite prefix_spec. split.
  - intros (pre & post & Heq). destruct pre as [|d pre].
    + left. by exists post.
    + right. rewrite app_cons in Heq. injection Heq as -> ->. by exists pre, post.
  - intros [[post Heq]|(pre & post & ->)].
    + by exists "", post.
    + by exists (String c pre), post.
Qed.

Lemma find_unfold s p :
  Py.find s p =
  if String.prefix p s then Some 0
  else match s with
       | EmptyString => None
       | String _ s' => S <$> Py.find s' p
       end.
Proof. by destruct s. Qed.

Lemma contains_unfold s p :
  Py.contains s p =
  if String.prefix p s then true
  else match s with
       | EmptyString => false
       | String _ s' => Py.contains s' p
       end.
Proof. by destruct s. Qed.

Lemma find_None s p : Py.find s p = None ↔ ¬ occurs p s.
Proof.
  induction s as [|c s IH]; rewrite find_unfold.
  - rewrite occurs_nil. destruct (String.prefix p ""); intuition congruence.
  - rewrite occurs_cons. destruct (String.prefix p (String c s)).
    + intuition congruence.
    + destruct (Py.find s p); simpl; intuition congruence.
Qed.

Lemma find_Some_prefix s p i :
  Py.find s p = Some i → String.prefix p (Py.slice_from i s) = true.
Proof.
  revert i. induction s as [|c s IH]; intros i; rewrite find_unfold.
  - destruct (String.prefix p "") eqn:Hp; [|done]. by intros [= <-].
  - destruct (String.prefix p (String c s)) eqn:Hp; [by intros [= <-]|].
    destruct (Py.find s p) as [j|]; simpl; [|done]. intros [= <-]. by apply IH.
Qed.

Lemma find_at_prefix s p : String.prefix p s = true → Py.find s p = Some 0.
Proof. intros Hp. by rewrite find_unfold, Hp. Qed.

Lemma contains_find s p : Py.contains s p = bool_decide (is_Some (Py.find s p)).
Proof.
  induction s as [|c s IH]; rewrite contains_unfold, find_unfold.
  - by destruct (String.prefix p "").
  - destruct (String.prefix p (String c s)); [done|]. rewrite IH.
    by destruct (Py.find s p).
Qed.

Lemma contains_true s p : Py.contains s p = true ↔ occurs p s.
Proof.
  rewrite contains_find, bool_decide_eq_true.
  destruct (Py.find s p) as [i|] eqn:Hf.
  - split; [intros _|by eexists].
    apply find_Some_prefix, prefix_spec in Hf as [post Hf]. clear -Hf.
    revert s Hf. induction i as [|i IH]; intros s Hf.
    + exists "", post. by rewrite app_nil_l.
    + destruct s as [|c s]; simpl in Hf.
      * exists "", post. by rewrite app_nil_l.
      * destruct (IH s Hf) as (pre & post' & ->). by exists (String c pre), post'.
  - split; [by intros [? [=]]|]. intros Hocc. by apply find_None in Hf.
Qed.

(** ** The lexer raises nothing but [ValueError] *)

Lemma emit_raises token k e :
  Shlex.emit token k = Raises e → k = Raises e.
Proof. destruct k; simpl; [done | by intros [= ->]]. Qed.

Lemma tokens_raises s st quoted token e :
  Shlex.tokens s st quoted token = Raises e → e = ValueError.
Proof.
  revert st quoted token.
  induction s as [|c s IH]; intros st quoted token; simpl.
  - destruct st; try (by intros [= <-]);
      by destruct (Shlex.nonempty token || quoted).
  - destruct st as [| |q|[q|]];
      repeat (match goal with
              | |- context [if ?b then _ else _] => destruct b
              end);
      try (by apply IH); intros ?%emit_raises; by eapply IH.
Qed.

Lemma parameter_names_raises cmd txt e :
  parameter_names cmd txt = Raises e → e = ValueError.
Proof.
  unfold parameter_names, Py.index.
  destruct (Py.find txt cmd) as [i|]; simpl; [|by intros [= <-]].
  destruct (Py.find _ cmd) as [j|]; simpl; [|by intros [= <-]].
  destruct (Shlex.split _) as [toks|e'] eqn:Hs; simpl; [done|].
  intros [= <-]. by eapply tokens_raises.
Qed.


Lemma format_examples_from_raises cmd exs acc e :
  format_examples_from cmd exs acc = Raises e → e = ValueError.
Proof.
  revert acc. induction exs as [|ex exs IH]; intros acc; simpl; [done|].
  destruct (parameter_names cmd (text ex)) as [names|e'] eqn:Hp; simpl.
  - apply IH.
  - intros [= <-]. by eapply parameter_names_raises.
Qed.


Lemma str_app_assoc s t u : (s +:+ t) +:+ u = s +:+ t +:+ u.
Proof. induction s as [|c s IH]; [done|]. by rewrite !app_cons, IH. Qed.

Lemma str_app_nil_r s : s +:+ "" = s.
Proof. induction s as [|c s IH]; [done|]. by rewrite app_cons, IH. Qed.

Lemma len_app s t : Py.len (s +:+ t) = Py.len s + Py.len t.
Proof.
  unfold Py.len. induction s as [|c s IH]; [done|].
  rewrite app_cons. simpl. by rewrite IH.
Qed.

Lemma slice_from_slice_from a b s :
  Py.slice_from a (Py.slice_from b s) = Py.slice_from (b + a) s.
Proof.
  revert s. induction b as [|b IH]; intros s; [done|].
  destruct s as [|c s]; simpl; [by destruct a|]. apply IH.
Qed.

Lemma slice_from_app s t : Py.slice_from (Py.len s) (s +:+ t) = t.
Proof. induction s as [|c s IH]; [done|]. by rewrite app_cons. Qed.

(** ** Runs of [merge] are determined by the state they start in *)

Section Runs.
Context (yaml_load : string → result help_doc) (helps : gmap string help_doc).


Lemma runs_step_inv st st' r :
  step yaml_load helps st = inl st' →
  runs yaml_load helps st r → runs yaml_load helps st' r.
Proof.
  intros Hst. inversion 1 as [? ? Hst'|? ? ? Hst' Hr]; subst;
    rewrite Hst in Hst'; by simplify_eq.
Qed.

Lemma run_runs fuel st r :
  run yaml_load helps fuel st = Some r → runs yaml_load helps st r.
Proof.
  revert st. induction fuel as [|fuel IH]; intros st; simpl; [done|].
  destruct (step yaml_load helps st) as [st'|r'] eqn:Hst.
  - intros ?. eapply runs_step; eauto.
  - intros [= ->]. by apply runs_done.
Qed.

Lemma runs_run st r :
  runs yaml_load helps st r → ∃ fuel, run yaml_load helps fuel st = Some r.
Proof.
  induction 1 as [st r Hst|st st' r Hst _ [fuel IH]].
  - exists 1. simpl. by rewrite Hst.
  - exists (S fuel). simpl. by rewrite Hst.
Qed.
End Runs.

(** ** Examples without the command *)




(** ** The signature of an example *)

Lemma parameter_names_eq cmd txt i :
  Py.find txt cmd = Some i →
  parameter_names cmd txt =
  (tokens ← Shlex.split (Py.slice_from (i + Py.len cmd) txt);
   mret (sort_names (Py.strip <$> filter (λ p, Py.startswith p "--") tokens))).
Proof.
  intros Hi. unfold parameter_names, Py.index. rewrite Hi. simpl.
  rewrite (find_at_prefix _ _ (find_Some_prefix _ _ _ Hi)). simpl.
  by rewrite slice_from_slice_from.
Qed.

(** C5, as the code has it: when the command occurs in the text (first at
    offset [i]) and the rest of the text after it splits into shell words,
    the signature is the list of those words that begin with two dashes,
    each stripped of surrounding whitespace, in ascending order of
    [String.le]; a flag that occurs several times is kept as often. *)
Theorem parameter_names_sorted_flags (cmd txt : string) (i : nat) (tokens : list string) :
  Py.find txt cmd = Some i →
  Shlex.split (Py.slice_from (i + Py.len cmd) txt) = Returns tokens →
  ∃ names,
    parameter_names cmd txt = Returns names
    ∧ StronglySorted String.le names
    ∧ names ≡ₚ Py.strip <$> filter (λ p, Py.startswith p "--") tokens.
Proof.
  intros Hi Hsplit. eexists. split_and!.
  - rewrite (parameter_names_eq _ _ _ Hi), Hsplit. done.
  - apply (StronglySorted_merge_sort _).
  - apply merge_sort_Permutation.
Qed.

Lemma parameter_names_sorted_flags_witness :
  Py.find "az vm create --name x -g rg --image y" "vm create" = Some 3
  ∧ Shlex.split (Py.slice_from (3 + Py.len "vm create")
                   "az vm create --name x -g rg --image y")
    = Returns ["--name"; "x"; "-g"; "rg"; "--image"; "y"]
  ∧ ∃ names,
      parameter_names "vm create" "az vm create --name x -g rg --image y"
      = Returns names
      ∧ StronglySorted String.le names
      ∧ names ≡ₚ Py.strip <$> filter (λ p, Py.startswith p "--")
                   ["--name"; "x"; "-g"; "rg"; "--image"; "y"].
Proof.
  split; [reflexivity|]. split; [reflexivity|].
  apply (parameter_names_sorted_flags "vm create"
           "az vm create --name x -g rg --image y" 3); reflexivity.
Defined.

(** C5 as stated fails: a flag given twice is twice in the signature. *)
Lemma signature_keeps_repeated_flags :
  parameter_names "vm create" "az vm create --name a --name b"
  = Returns ["--name"; "--name"]
  ∧ ¬ NoDup ["--name"; "--name"].
Proof.
  split; [by vm_compute|].
  intros Hnd. apply NoDup_cons in Hnd as [Hnotin _].
  apply Hnotin, list_elem_of_here.
Qed.

(** ** Indent inference *)

Lemma search_non_space_None s : Py.search_non_space s = None ↔ blank s.
Proof.
  unfold blank, Py.len. induction s as [|c s IH]; simpl; [done|].
  destruct (Ascii.eqb_spec c " ") as [->|Hc].
  - destruct (Py.search_non_space s); simpl.
    + split; [done|]. intros [= Hs]. by apply IH in Hs.
    + split; [|done]. intros _. f_equal. by apply IH.
  - split; [done|]. by intros [= ? _].
Qed.

Lemma search_non_space_Some s w :
  Py.search_non_space s = Some w →
  Py.slice_to w s = Py.spaces w ∧ ¬ blank s.
Proof.
  intros Hw. split; [|rewrite <-search_non_space_None; congruence].
  revert w Hw. induction s as [|c s IH]; intros w; simpl; [done|].
  destruct (Ascii.eqb_spec c " ") as [->|Hc]; [|by intros [= <-]].
  destruct (Py.search_non_space s) as [w'|]; simpl; [|done].
  intros [= <-]. simpl. f_equal. by apply IH.
Qed.

Lemma lstrip_suffix s : ∃ pre, s = pre +:+ Py.lstrip s.
Proof.
  induction s as [|c s [pre IH]]; simpl; [by exists ""|].
  destruct (Py.isspace c); [|by exists ""].
  exists (String c pre). by rewrite app_cons, <-IH.
Qed.

Lemma rstrip_prefix s : ∃ post, s = Py.rstrip s +:+ post.
Proof.
  induction s as [|c s [post IH]]; simpl; [by exists ""|].
  destruct (Py.rstrip s) as [|d r] eqn:Hr.
  - destruct (Py.isspace c).
    + by exists (String c s).
    + exists s. by rewrite app_cons.
  - exists post. by rewrite app_cons, <-IH.
Qed.

Lemma strip_startswith_occurs s p :
  Py.startswith (Py.strip s) p = true → occurs p s.
Proof.
  unfold Py.startswith, Py.strip. intros [x Hx]%prefix_spec.
  destruct (lstrip_suffix s) as [pre Hpre].
  destruct (rstrip_prefix (Py.lstrip s)) as [post Hpost].
  exists pre, (x +:+ post). by rewrite Hpre at 1; rewrite Hpost, Hx, str_app_assoc.
Qed.

Lemma occurs_examples_not_blank s : occurs "examples" s → ¬ blank s.
Proof.
  intros (pre & post & ->). rewrite <-search_non_space_None.
  induction pre as [|c pre IH]; [done|].
  rewrite app_cons. simpl. destruct (Ascii.eqb c " "); [|done].
  by destruct (Py.search_non_space _).
Qed.

Lemma find_examples_line_Some lines k idx key :
  find_examples_line lines k = Some (idx, key) →
  k ≤ idx ∧ lines !! (idx - k) = Some key
  ∧ Py.startswith (Py.strip key) "examples" = true.
Proof.
  revert k. induction lines as [|s lines IH]; intros k; simpl; [done|].
  destruct (Py.startswith (Py.strip s) "examples") eqn:Hs.
  - intros [= <- <-]. by rewrite Nat.sub_diag.
  - intros (? & Hl & ?)%IH. split_and!; [lia| |done].
    by replace (idx - k) with (S (idx - S k)) by lia.
Qed.


Lemma indent_width_not_blank s :
  ¬ blank s → ∃ w, indent_width s = Returns w.
Proof.
  rewrite <-search_non_space_None. unfold indent_width.
  destruct (Py.search_non_space s); [by eexists|done].
Qed.

(** The function in terms of the line it settles on. *)
Lemma calculate_indent_chosen raw idx key :
  chosen_line raw = Some (idx, key) →
  calculate_example_yaml_indent raw =
  (width ← indent_width key;
   let preceding_indent := Py.slice_to width key in
   if Py.contains key "examples" then
     next ← list_get raw (idx + 1);
     width ← indent_width next;
     mret (preceding_indent, Py.slice_to width next)
   else mret (preceding_indent, preceding_indent +:+ Py.spaces 2)).
Proof.
  unfold chosen_line, calculate_example_yaml_indent, list_get.
  destruct (raw !! 0) as [first|]; simpl; [|done].
  destruct (default _ _) as [idx' key']. by intros [= -> ->].
Qed.



Lemma indent_width_indentation s w :
  indent_width s = Returns w → Py.slice_to w s = indentation s.
Proof.
  unfold indent_width. revert w. induction s as [|c s IH]; intros w; simpl; [done|].
  destruct (Ascii.eqb c " "); [|by intros [= <-]].
  destruct (Py.search_non_space s) as [w'|]; simpl; [|done].
  intros [= <-]. simpl. f_equal. by apply IH.
Qed.

(** X8: with an [examples] line that has a line after it, the two
    indentations are those of that line and of the next. *)
Lemma indent_examples_found raw idx key next :
  find_examples_line raw 0 = Some (idx, key) →
  raw !! (idx + 1) = Some next → ¬ blank next →
  calculate_example_yaml_indent raw = Returns (indentation key, indentation next).
Proof.
  intros Hf Hnext Hnb.
  pose proof (find_examples_line_Some _ _ _ _ Hf) as (_ & Hkey & Hstart).
  assert (chosen_line raw = Some (idx, key)) as Hc.
  { unfold chosen_line. rewrite Hf. by destruct raw. }
  apply strip_startswith_occurs in Hstart.
  rewrite (calculate_indent_chosen _ _ _ Hc).
  destruct (indent_width_not_blank key) as [w Hw];
    [by apply occurs_examples_not_blank|].
  destruct (indent_width_not_blank _ Hnb) as [w' Hw'].
  apply contains_true in Hstart. unfold list_get.
  rewrite Hw. simpl. rewrite Hstart, Hnext. simpl. rewrite Hw'. simpl.
  by rewrite (indent_width_indentation _ _ Hw), (indent_width_indentation _ _ Hw').
Qed.

(** X9: without an [examples] line, and with a first line in which the
    word does not occur either, the inner indentation is the first line's
    plus two spaces. *)
Lemma indent_examples_absent raw first :
  find_examples_line raw 0 = None → raw !! 0 = Some first →
  ¬ blank first → Py.contains first "examples" = false →
  calculate_example_yaml_indent raw
  = Returns (indentation first, indentation first +:+ "  ").
Proof.
  intros Hf Hfirst Hnb Hno.
  assert (chosen_line raw = Some (0, first)) as Hc.
  { unfold chosen_line. by rewrite Hfirst, Hf. }
  rewrite (calculate_indent_chosen _ _ _ Hc).
  destruct (indent_width_not_blank _ Hnb) as [w Hw].
  rewrite Hw. simpl. rewrite Hno.
  by rewrite (indent_width_indentation _ _ Hw).
Qed.

(** C4 at a block whose first line mentions the word without starting with
    it: no line starts with [examples], the first line is not indented, and
    yet the inner indentation is that of the second line, not two spaces. *)
Theorem indent_first_line_mentions_examples :
  let first := "short-summary: Usage examples." +:+ Py.nl in
  let raw := [first; "type: command" +:+ Py.nl] in
  find_examples_line raw 0 = None
  ∧ indentation first = ""
  ∧ calculate_example_yaml_indent raw = Returns ("", "")
  ∧ calculate_example_yaml_indent [first] = Raises IndexError.
Proof. by vm_compute. Qed.

(** ** The formatter *)

Lemma foldl_write_parameter inner buffer ps :
  foldl (write_parameter inner) buffer ps = buffer ++ (piece inner <$> ps).
Proof.
  revert buffer. induction ps as [|p ps IH]; intros buffer; simpl.
  - by rewrite app_nil_r.
  - rewrite IH. unfold write_parameter, piece.
    destruct (Py.startswith p "--"); by rewrite <-app_assoc.
Qed.

Lemma write_examples_cons inner cmd ex exs buffer :
  write_examples inner cmd (ex :: exs) buffer =
  (pieces ← rendered_example inner cmd ex;
   write_examples inner cmd exs (buffer ++ pieces)).
Proof.
  simpl. unfold rendered_example.
  destruct (parameters_of cmd ex) as [parameters|e]; simpl; [|done].
  f_equal. unfold one_line, wrapped. rewrite foldl_write_parameter.
  destruct (_ <? 80), (crafted ex); simpl; by rewrite <-?app_assoc.
Qed.

Lemma write_examples_rendered inner cmd exs buffer :
  write_examples inner cmd exs buffer =
  (pieces ← mapM (rendered_example inner cmd) exs;
   mret (buffer ++ concat pieces)).
Proof.
  revert buffer. induction exs as [|ex exs IH]; intros buffer.
  - simpl. by rewrite app_nil_r.
  - rewrite write_examples_cons. simpl.
    destruct (rendered_example inner cmd ex) as [pieces|e]; simpl; [|done].
    rewrite IH. destruct (mapM _ exs); simpl; [|done]. by rewrite app_assoc.
Qed.

Lemma join_cons p ps : Py.join (p :: ps) = p +:+ Py.join ps.
Proof. done. Qed.

Lemma join_app ps qs : Py.join (ps ++ qs) = Py.join ps +:+ Py.join qs.
Proof.
  induction ps as [|p ps IH]; [done|].
  by rewrite <-app_comm_cons, !join_cons, IH, str_app_assoc.
Qed.







(** ** Continuation lines *)





(** ** Grouping by signature *)

Lemma dict_append_keys formatted key ex :
  (dict_append formatted key ex).*1
  = if decide (key ∈ formatted.*1) then formatted.*1 else formatted.*1 ++ [key].
Proof.
  induction formatted as [|[k exs] rest IH]; csimpl; [done|].
  destruct (decide (k = key)) as [->|Hne]; csimpl.
  - rewrite decide_True; [done|]. apply list_elem_of_here.
  - rewrite IH. destruct (decide (key ∈ rest.*1)) as [Hin|Hnotin].
    + rewrite decide_True; [done|]. by apply list_elem_of_further.
    + rewrite decide_False; [done|]. rewrite elem_of_cons. by intros [->|?].
Qed.

Lemma dict_append_NoDup formatted key ex :
  NoDup formatted.*1 → NoDup (dict_append formatted key ex).*1.
Proof.
  intros Hnd. rewrite dict_append_keys. case_decide; [done|].
  apply NoDup_app. split_and!; [done| |apply NoDup_singleton].
  intros k Hk ->%list_elem_of_singleton. done.
Qed.

Lemma dict_append_Forall (Q : signature → example → Prop) formatted key ex :
  Q key ex →
  Forall (λ g, Forall (Q g.1) g.2) formatted →
  Forall (λ g, Forall (Q g.1) g.2) (dict_append formatted key ex).
Proof.
  intros Hq. induction 1 as [|[k exs] rest Hk Hrest IH]; simpl.
  - by repeat constructor.
  - destruct (decide (k = key)) as [->|Hne]; constructor; simpl in *; try done.
    apply Forall_app. by split; [|repeat constructor].
Qed.

Lemma dict_append_filter (P : signature → Prop) `{∀ names, Decision (P names)}
    formatted key ex :
  filter (λ g, P g.1) (dict_append formatted key ex)
  = if decide (P key) then dict_append (filter (λ g, P g.1) formatted) key ex
    else filter (λ g, P g.1) formatted.
Proof.
  induction formatted as [|[k exs] rest IH]; simpl.
  - rewrite filter_cons. simpl. destruct (decide (P key)); by rewrite ?filter_nil.
  - destruct (decide (k = key)) as [->|Hne]; rewrite !filter_cons; simpl.
    + destruct (decide (P key)); simpl; [|done]. by rewrite decide_True.
    + rewrite IH. destruct (decide (P k)), (decide (P key)); simpl; try done.
      by rewrite decide_False.
Qed.

Section Grouping.
Context (cmd : string).

Lemma format_examples_from_keys exs acc formatted names :
  format_examples_from cmd exs acc = Returns formatted →
  names ∈ formatted.*1 ↔
  names ∈ acc.*1 ∨ ∃ ex, ex ∈ exs ∧ parameter_names cmd (text ex) = Returns names.
Proof.
  revert acc. induction exs as [|ex exs IH]; intros acc; simpl.
  - intros [= <-]. split; [by left|]. intros [?|(ex & Hin & _)]; [done|].
    by apply elem_of_nil in Hin.
  - destruct (parameter_names cmd (text ex)) as [k|e] eqn:Hk; simpl; [|done].
    intros Hf. rewrite (IH _ Hf), dict_append_keys. split.
    + intros [Hin|(ex' & Hin & Hn)].
      * case_decide; [by left|]. apply elem_of_app in Hin as [?|Hin]; [by left|].
        apply list_elem_of_singleton in Hin as ->. right. exists ex.
        split; [apply list_elem_of_here|done].
      * right. exists ex'. split; [by apply list_elem_of_further|done].
    + intros [Hin|(ex' & Hin & Hn)].
      * left. case_decide; [done|]. apply elem_of_app. by left.
      * apply elem_of_cons in Hin as [->|Hin].
        -- left. rewrite Hk in Hn. injection Hn as <-. case_decide; [done|].
           apply elem_of_app. right. apply list_elem_of_here.
        -- right. by exists ex'.
Qed.

Lemma format_examples_from_NoDup exs acc formatted :
  format_examples_from cmd exs acc = Returns formatted →
  NoDup acc.*1 → NoDup formatted.*1.
Proof.
  revert acc. induction exs as [|ex exs IH]; intros acc; simpl.
  - by intros [= <-].
  - destruct (parameter_names cmd (text ex)) as [k|e]; simpl; [|done].
    intros Hf Hnd. eapply IH; [done|]. by apply dict_append_NoDup.
Qed.

Lemma format_examples_from_members (Q : example → Prop) exs acc formatted :
  format_examples_from cmd exs acc = Returns formatted →
  Forall Q exs →
  Forall (λ g, Forall (λ ex, parameter_names cmd (text ex) = Returns g.1 ∧ Q ex) g.2) acc →
  Forall (λ g, Forall (λ ex, parameter_names cmd (text ex) = Returns g.1 ∧ Q ex) g.2)
    formatted.
Proof.
  revert acc. induction exs as [|ex exs IH]; intros acc; simpl.
  - by intros [= <-].
  - destruct (parameter_names cmd (text ex)) as [k|e] eqn:Hk; simpl; [|done].
    intros Hf [Hq Hexs]%Forall_cons Hacc. eapply IH; [done..|].
    by apply (dict_append_Forall
                (λ names ex, parameter_names cmd (text ex) = Returns names ∧ Q ex)).
Qed.

Lemma format_examples_from_filter (P : signature → Prop)
    `{∀ names, Decision (P names)} exs acc formatted :
  format_examples_from cmd exs acc = Returns formatted →
  format_examples_from cmd (filter (signature_in cmd P) exs)
    (filter (λ g, P g.1) acc)
  = Returns (filter (λ g, P g.1) formatted).
Proof.
  revert acc. induction exs as [|ex exs IH]; intros acc; simpl.
  - by intros [= <-].
  - destruct (parameter_names cmd (text ex)) as [k|e] eqn:Hk; simpl; [|done].
    intros Hf. rewrite filter_cons. unfold signature_in at 1.
    destruct (decide _) as [Hp|Hp]; rewrite Hk in Hp.
    + simpl. rewrite Hk. simpl. rewrite <-(IH _ Hf), dict_append_filter.
      by rewrite decide_True.
    + rewrite <-(IH _ Hf), dict_append_filter. by rewrite decide_False.
Qed.
End Grouping.

(** ** What [merge_examples] appends *)

Lemma write_examples_group inner cmd exs buffer :
  write_examples inner cmd exs buffer
  = (pieces ← render_group inner cmd exs; mret (buffer ++ pieces)).
Proof.
  rewrite write_examples_rendered. unfold render_group.
  by destruct (mapM _ exs).
Qed.

Lemma merge_examples_loop_spec cmd cli ala items prec inner written buffer :
  merge_examples_loop cmd cli ala items prec inner written buffer
  = (pieces ← mapM (λ g, render_group inner cmd g.2) (fresh cli items);
     mret (buffer
           ++ (if negb written && negb (bool_decide (ala = []))
                  && bool_decide (cli = [])
                  && negb (bool_decide (fresh cli items = []))
               then [examples_key prec] else [])
           ++ concat pieces)).
Proof.
  revert written buffer. unfold fresh.
  induction items as [|[names exs] items IH]; intros written buffer.
  - simpl. by rewrite andb_false_r, app_nil_r.
  - cbn [merge_examples_loop]. rewrite filter_cons. unfold dict_mem. cbn [fst].
    destruct (decide (names ∉ cli.*1)) as [Hnew|Hold].
    + rewrite bool_decide_eq_false_2 by done. cbn [snd mapM].
      set (c := negb written && negb (bool_decide (ala = []))
                && bool_decide (cli = [])).
      rewrite (bool_decide_eq_false_2 (_ :: _ = [])) by done.
      rewrite andb_true_r.
      destruct c eqn:Hc.
      * rewrite write_examples_group. simpl.
        destruct (render_group inner cmd exs) as [ps|e]; simpl; [|done].
        rewrite IH. simpl.
        destruct (mapM _ _) as [pss|e]; simpl; [|done].
        by rewrite <-!app_assoc.
      * rewrite write_examples_group. simpl.
        destruct (render_group inner cmd exs) as [ps|e]; simpl; [|done].
        rewrite IH. fold c. rewrite Hc. simpl.
        destruct (mapM _ _) as [pss|e]; simpl; [|done].
        by rewrite <-!app_assoc.
    + apply dec_stable in Hold. rewrite bool_decide_eq_true_2 by done. apply IH.
Qed.

Lemma fresh_nil_of_nil cli : fresh cli [] = [].
Proof. done. Qed.

Lemma merge_examples_spec yaml_load cmd raw generated buffer :
  merge_examples yaml_load cmd raw (HelpDoc (Some generated)) buffer
  = (doc ← yaml_load (Py.join raw);
     cli ← format_examples cmd (default [] (examples doc));
     ala ← format_examples cmd generated;
     indents ← calculate_example_yaml_indent raw;
     pieces ← mapM (λ g, render_group indents.2 cmd g.2) (fresh cli ala);
     mret (buffer
           ++ (if bool_decide (cli = []) && negb (bool_decide (fresh cli ala = []))
               then [examples_key indents.1] else [])
           ++ concat pieces)).
Proof.
  unfold merge_examples.
  destruct (yaml_load _) as [doc|e]; simpl; [|done].
  destruct (format_examples cmd (default [] _)) as [cli|e]; simpl; [|done].
  destruct (format_examples cmd generated) as [ala|e]; simpl; [|done].
  destruct (calculate_example_yaml_indent raw) as [[prec inner]|e]; simpl; [|done].
  rewrite merge_examples_loop_spec. simpl.
  destruct (mapM _ _) as [pieces|e]; simpl; [|done].
  do 3 f_equal. destruct ala; [|done].
  rewrite fresh_nil_of_nil. by destruct (bool_decide (cli = [])).
Qed.

Lemma format_examples_known cmd existing cli names :
  format_examples cmd existing = Returns cli →
  names ∈ cli.*1 ↔ known cmd existing names.
Proof.
  intros Hf. unfold format_examples in Hf.
  rewrite (format_examples_from_keys _ _ _ _ _ Hf). unfold known.
  rewrite Exists_exists. split; [|by right].
  intros [Hin|?]; [|done]. by apply elem_of_nil in Hin.
Qed.

Lemma format_examples_nil_iff cmd existing cli :
  format_examples cmd existing = Returns cli → cli = [] ↔ existing = [].
Proof.
  intros Hf. split.
  - intros ->. destruct existing as [|old rest]; [done|].
    pose proof Hf as Hf'. unfold format_examples in Hf'. simpl in Hf'.
    destruct (parameter_names cmd (text old)) as [names|e] eqn:Hn; [|done].
    assert (names ∈ ([] : grouping).*1) as Hin; [|by apply elem_of_nil in Hin].
    apply (format_examples_known _ _ _ names Hf). apply Exists_cons. by left.
  - intros ->. by injection Hf as <-.
Qed.

(** The generated groups that are written: the grouping of the generated
    examples that have no known signature. *)
Lemma fresh_groups cmd existing generated cli ala :
  format_examples cmd existing = Returns cli →
  format_examples cmd generated = Returns ala →
  format_examples cmd
    (filter (signature_in cmd (λ names, ¬ known cmd existing names)) generated)
  = Returns (fresh cli ala).
Proof.
  intros Hcli Hala. unfold format_examples, fresh in *.
  pose proof (format_examples_from_filter cmd (λ names, names ∉ cli.*1) _ _ _ Hala)
    as Hfil.
  rewrite filter_nil in Hfil. cbv beta in Hfil. rewrite <-Hfil.
  f_equal. apply list_filter_iff. intros ex.
  unfold signature_in. destruct (parameter_names cmd (text ex)); [|done].
  by rewrite (format_examples_known _ _ _ _ Hcli).
Qed.

Lemma merge_examples_groups yaml_load cmd raw generated buffer doc out :
  yaml_load (Py.join raw) = Returns doc →
  merge_examples yaml_load cmd raw (HelpDoc (Some generated)) buffer = Returns out →
  let existing := default [] (examples doc) in
  ∃ indents groups pieces,
    calculate_example_yaml_indent raw = Returns indents
    ∧ format_examples cmd
        (filter (signature_in cmd (λ names, ¬ known cmd existing names)) generated)
      = Returns groups
    ∧ mapM (λ g, render_group indents.2 cmd g.2) groups = Returns pieces
    ∧ out = buffer
            ++ (if bool_decide (existing = [] ∧ groups ≠ [])
                then [examples_key indents.1] else [])
            ++ concat pieces.
Proof.
  intros Hdoc Hout existing. rewrite merge_examples_spec, Hdoc in Hout.
  simpl in Hout. fold existing in Hout.
  destruct (format_examples cmd existing) as [cli|e] eqn:Hcli; [|done].
  destruct (format_examples cmd generated) as [ala|e] eqn:Hala; [|done].
  destruct (calculate_example_yaml_indent raw) as [indents|e]; [|done].
  simpl in Hout.
  destruct (mapM _ (fresh cli ala)) as [pieces|e] eqn:Hpieces; [|done].
  injection Hout as <-. exists indents, (fresh cli ala), pieces.
  split_and!; [done|by apply fresh_groups|done|].
  do 2 f_equal. pose proof (format_examples_nil_iff _ _ _ Hcli) as Hnil.
  destruct (decide (cli = [])) as [Hc|Hc], (decide (fresh cli ala = [])) as [Hf|Hf].
  - rewrite !bool_decide_eq_true_2, (bool_decide_eq_false_2 (_ ∧ _)) by tauto. done.
  - rewrite (bool_decide_eq_true_2 (cli = [])), (bool_decide_eq_false_2 (fresh _ _ = [])),
      (bool_decide_eq_true_2 (_ ∧ _)) by tauto. done.
  - rewrite (bool_decide_eq_false_2 (cli = [])), (bool_decide_eq_false_2 (_ ∧ _))
      by tauto. done.
  - rewrite (bool_decide_eq_false_2 (cli = [])), (bool_decide_eq_false_2 (_ ∧ _))
      by tauto. done.
Qed.




(** ** Merging twice *)


Lemma format_examples_from_returns cmd exs acc :
  Forall (λ ex, ∃ names, parameter_names cmd (text ex) = Returns names) exs →
  ∃ formatted, format_examples_from cmd exs acc = Returns formatted.
Proof.
  intros Hall. revert acc.
  induction Hall as [|ex exs [names Hn] _ IH]; intros acc; simpl.
  - by eexists.
  - rewrite Hn. simpl. apply IH.
Qed.





(** ** Texts that end where a line ends *)

Lemma ends_nl_app s t : ends_nl s → ends_nl t → ends_nl (s +:+ t).
Proof.
  intros Hs [->|[u ->]]; [by rewrite str_app_nil_r|].
  right. exists (s +:+ u). by rewrite str_app_assoc.
Qed.

Lemma ends_nl_join_app ps qs :
  ends_nl (Py.join ps) → ends_nl (Py.join qs) → ends_nl (Py.join (ps ++ qs)).
Proof. rewrite join_app. apply ends_nl_app. Qed.

Lemma ends_nl_join_concat pss :
  Forall (λ ps, ends_nl (Py.join ps)) pss → ends_nl (Py.join (concat pss)).
Proof.
  induction 1 as [|ps pss Hps _ IH]; [by left|]. simpl.
  by apply ends_nl_join_app.
Qed.

Lemma mapM_returns {A B} (f : A → result B) l ys :
  mapM f l = Returns ys → Forall2 (λ x y, f x = Returns y) l ys.
Proof.
  revert ys. induction l as [|x l IH]; intros ys; simpl.
  - intros [= <-]. constructor.
  - destruct (f x) as [y|e] eqn:Hx; simpl; [|done].
    destruct (mapM f l) as [ys'|e]; simpl; [|done].
    intros [= <-]. constructor; auto.
Qed.

Lemma mapM_ends_nl {A} (f : A → result (list string)) l pss :
  (∀ x ps, f x = Returns ps → ends_nl (Py.join ps)) →
  mapM f l = Returns pss → ends_nl (Py.join (concat pss)).
Proof.
  intros Hf Hm%mapM_returns. apply ends_nl_join_concat.
  induction Hm; constructor; eauto.
Qed.

Lemma newline_last_app s t : (∃ u, t = u +:+ Py.nl) → ∃ u, s +:+ t = u +:+ Py.nl.
Proof. intros [u ->]. exists (s +:+ u). by rewrite str_app_assoc. Qed.

Lemma rendered_example_ends_nl inner cmd ex ps :
  rendered_example inner cmd ex = Returns ps → ends_nl (Py.join ps).
Proof.
  unfold rendered_example. destruct (parameters_of cmd ex); simpl; [|done].
  intros [= <-]. right. rewrite !join_cons, !join_app.
  do 5 apply newline_last_app. exists "". by rewrite join_cons, str_app_nil_r.
Qed.

Lemma render_group_ends_nl inner cmd exs ps :
  render_group inner cmd exs = Returns ps → ends_nl (Py.join ps).
Proof.
  unfold render_group. destruct (mapM _ exs) as [pss|e] eqn:Hm; simpl; [|done].
  intros [= <-]. eapply mapM_ends_nl; [|exact Hm].
  intros. by eapply rendered_example_ends_nl.
Qed.

(** [merge_examples] leaves the buffer as it is and appends whole lines. *)
Lemma merge_examples_added yaml_load cmd raw aladdin_help buffer out :
  merge_examples yaml_load cmd raw aladdin_help buffer = Returns out →
  ∃ added, out = buffer ++ added ∧ ends_nl (Py.join added).
Proof.
  destruct aladdin_help as [[generated|]].
  - rewrite merge_examples_spec.
    destruct (yaml_load _); [|done]. simpl.
    destruct (format_examples cmd (default _ _)) as [cli|]; [|done]. simpl.
    destruct (format_examples cmd generated) as [ala|]; [|done]. simpl.
    destruct (calculate_example_yaml_indent raw) as [indents|]; [|done]. simpl.
    destruct (mapM _ _) as [pss|] eqn:Hm; [|done]. intros [= <-].
    eexists. split; [done|]. apply ends_nl_join_app.
    + destruct (_ && _); [|by left]. right. exists (indents.1 +:+ "examples:").
      unfold examples_key. by rewrite join_cons, str_app_nil_r, str_app_assoc.
    + eapply mapM_ends_nl; [|exact Hm]. intros g ps. apply render_group_ends_nl.
  - unfold merge_examples. destruct (yaml_load _); [|done].
    intros [= <-]. exists []. split; [by rewrite app_nil_r|by left].
Qed.

(** ** Runs of [merge] *)

Lemma well_closed_app pre lines : well_closed (pre ++ lines) → well_closed lines.
Proof.
  intros Hw pre' line post ->. apply (Hw (pre ++ pre')). by rewrite <-app_assoc.
Qed.

Lemma readline_cons line rest : readline (line :: rest) = (line, rest).
Proof. done. Qed.

Section RunsOfMerge.
Context (yaml_load : string → result help_doc) (helps : gmap string help_doc).

Local Abbreviation round := (step yaml_load helps).
Local Abbreviation ends := (runs yaml_load helps).
Local Abbreviation reaches := (steps yaml_load helps).

Lemma steps_trans st st' st'' : reaches st st' → reaches st' st'' → reaches st st''.
Proof. induction 1; eauto using steps. Qed.

Lemma steps_runs st st' r : reaches st st' → ends st' r → ends st r.
Proof. induction 1; eauto using runs_step. Qed.

Lemma runs_steps st st' r : reaches st st' → ends st r → ends st' r.
Proof. induction 1; eauto using runs_step_inv. Qed.

(** *** The inner loop without a closing line ahead *)

Lemma step_inner_not_closing st cmd raw line :
  at_ st = Inner cmd raw line → Py.endswith line closing = false →
  round st = inl (State (readline (file st)).2 (buffer st)
                   (Inner cmd (raw ++ [line]) (readline (file st)).1)).
Proof.
  intros Hat Hno. unfold step. rewrite Hat, Hno. simpl.
  by destruct (readline (file st)).
Qed.

Lemma unclosed_block_diverges st cmd raw line :
  at_ st = Inner cmd raw line →
  Forall (λ l, Py.endswith l closing = false) (line :: file st) →
  diverges yaml_load helps st.
Proof.
  intros Hat Hall r Hr. revert cmd raw line Hat Hall.
  induction Hr as [st r Hst|st st' r Hst _ IH]; intros cmd raw line Hat Hall.
  - apply Forall_cons in Hall as [Hline _].
    by rewrite (step_inner_not_closing _ _ _ _ Hat Hline) in Hst.
  - apply Forall_cons in Hall as [Hline Hfile].
    rewrite (step_inner_not_closing _ _ _ _ Hat Hline) in Hst.
    injection Hst as <-. eapply IH; [done|]. simpl.
    destruct (file st) as [|l rest]; simpl.
    + by repeat constructor.
    + done.
Qed.

(** *** The inner loop with a closing line ahead *)

Lemma inner_loop_closes file buffer cmd raw line :
  Exists is_closing (line :: file) →
  ∃ pre line' file',
    line :: file = pre ++ line' :: file' ∧ is_closing line'
    ∧ reaches (State file buffer (Inner cmd raw line))
            (State file' buffer (Inner cmd (raw ++ pre) line')).
Proof.
  revert raw line. induction file as [|l file IH]; intros raw line Hex.
  - apply Exists_cons in Hex as [Hc|Hex]; [|by apply Exists_nil in Hex].
    exists [], line, []. rewrite app_nil_r. split_and!; [done..|apply steps_refl].
  - destruct (Py.endswith line closing) eqn:Hline.
    + exists [], line, (l :: file). rewrite app_nil_r.
      split_and!; [done..|apply steps_refl].
    + apply Exists_cons in Hex as [Hc|Hex]; [unfold is_closing in Hc; congruence|].
      destruct (IH (raw ++ [line]) l Hex) as (pre & line' & file' & Heq & Hc & Hsteps).
      exists (line :: pre), line', file'. split_and!; [by rewrite Heq|done|].
      eapply steps_step; [by apply step_inner_not_closing|]. simpl.
      by rewrite <-app_assoc in Hsteps.
Qed.

Lemma step_inner_closing file buffer cmd raw line :
  is_closing line →
  (∃ added, round (State file buffer (Inner cmd raw line))
            = inl (State file (buffer ++ raw ++ added ++ [line]) Outer)
            ∧ (helps !! cmd = None → added = [])
            ∧ ends_nl (Py.join added))
  ∨ (∃ e, round (State file buffer (Inner cmd raw line)) = inr (Raises e)
          ∧ is_Some (helps !! cmd)).
Proof.
  intros Hc. unfold step. simpl. rewrite Hc. simpl.
  destruct (helps !! cmd) as [aladdin_help|] eqn:Hh.
  - destruct (merge_examples _ _ _ _ _) as [b|e] eqn:Hm.
    + left. apply merge_examples_added in Hm as (added & -> & Hnl).
      exists added. split_and!; [|done..]. by rewrite <-!app_assoc.
    + right. by exists e.
  - left. exists []. split_and!; [|done|by left]. by rewrite <-!app_assoc.
Qed.

(** *** Termination *)

Lemma outer_loop_terminates n file buffer :
  length file ≤ n → well_closed file → ∃ r, ends (State file buffer Outer) r.
Proof.
  revert file buffer. induction n as [|n IH]; intros file buffer Hlen Hw.
  { destruct file; [|simpl in Hlen; lia]. eexists. by apply runs_done. }
  destruct file as [|line rest]; [eexists; by apply runs_done|].
  simpl in Hlen.
  destruct (Py.startswith line helps_open) eqn:Hstart.
  - destruct (search_helps line) as [g|] eqn:Hg.
    + assert (Exists is_closing rest) as Hex.
      { apply (Hw [] line rest); [done|]. split; [done|by eexists]. }
      destruct rest as [|l rest]; [by apply Exists_nil in Hex|].
      destruct (inner_loop_closes rest (buffer ++ [line]) (Py.strip g) [] l Hex)
        as (pre & line' & file' & Heq & Hc & Hsteps).
      assert (round (State (line :: l :: rest) buffer Outer)
              = inl (State rest (buffer ++ [line]) (Inner (Py.strip g) [] l)))
        as Hfirst.
      { unfold step. simpl. by rewrite Hstart, Hg. }
      destruct (step_inner_closing file' (buffer ++ [line]) (Py.strip g)
                  ([] ++ pre) line' Hc) as [(added & Hst & _)|(e & Hst & _)].
      * destruct (IH file' ((buffer ++ [line]) ++ ([] ++ pre) ++ added ++ [line']))
          as [r Hr].
        { apply (f_equal length) in Heq. rewrite length_app in Heq.
          simpl in *. lia. }
        { apply (well_closed_app (line :: pre ++ [line'])).
          replace ((line :: pre ++ [line']) ++ file') with (line :: l :: rest);
            [done|].
          rewrite Heq. simpl. by rewrite <-app_assoc. }
        exists r. eapply runs_step; [exact Hfirst|].
        eapply steps_runs; [exact Hsteps|]. eapply runs_step; [exact Hst|done].
      * exists (Raises e). eapply runs_step; [exact Hfirst|].
        eapply steps_runs; [exact Hsteps|]. by apply runs_done.
    + exists (Raises AttributeError). apply runs_done.
      unfold step. simpl. by rewrite Hstart, Hg.
  - destruct (IH rest (buffer ++ [line])) as [r Hr]; [lia| |].
    { by apply (well_closed_app [line]). }
    exists r. eapply runs_step; [|exact Hr].
    unfold step. simpl. by rewrite Hstart.
Qed.
End RunsOfMerge.

(** C9, as the code has it: [merge] comes to an end (with a buffer or with
    an exception) on every file in which each block start is followed by a
    line that ends with three double quotes and the newline; and once it
    reads a block with no such line left in the file, it never comes to an
    end: at the end of the file [readline] answers the empty string, which
    is not a closing line either. *)
Theorem merge_termination
    (yaml_load : string → result help_doc) (helps : gmap string help_doc)
    (lines : list string) :
  (well_closed lines → ∃ r, merge yaml_load helps lines r)
  ∧ (∀ st cmd raw line,
       steps yaml_load helps (start lines) st →
       at_ st = Inner cmd raw line →
       Forall (λ l, Py.endswith l closing = false) (line :: file st) →
       ∀ r, ¬ merge yaml_load helps lines r).
Proof.
  split.
  - intros Hw. by apply (outer_loop_terminates _ _ (length lines)).
  - intros st cmd raw line Hsteps Hat Hall r Hr.
    eapply unclosed_block_diverges; [exact Hat|exact Hall|].
    eapply runs_steps; [exact Hsteps|exact Hr].
Qed.

Lemma merge_termination_witness :
  let lines := [helps_open +:+ "vm create" +:+ helps_close;
                "type: command" +:+ Py.nl; closing; "# end" +:+ Py.nl] in
  let unclosed := [helps_open +:+ "vm create" +:+ helps_close;
                   "type: command" +:+ Py.nl] in
  let st := State [] [helps_open +:+ "vm create" +:+ helps_close]
              (Inner "vm create" [] ("type: command" +:+ Py.nl)) in
  (well_closed lines ∧ ∃ r, merge Yaml.load ∅ lines r)
  ∧ (steps Yaml.load ∅ (start unclosed) st
     ∧ Forall (λ l, Py.endswith l closing = false)
         (("type: command" +:+ Py.nl) :: file st)
     ∧ ∀ r, ¬ merge Yaml.load ∅ unclosed r).
Proof.
  intros lines unclosed st. split.
  - assert (well_closed lines) as Hw.
    { intros pre line post Heq [Hstart _].
      destruct pre as [|l1 [|l2 [|l3 [|l4 pre]]]]; simplify_eq/=.
      - apply Exists_cons_tl, Exists_cons_hd. reflexivity.
      - destruct pre; simplify_eq. }
    split; [exact Hw|].
    exact (proj1 (merge_termination Yaml.load ∅ lines) Hw).
  - assert (steps Yaml.load ∅ (start unclosed) st) as Hsteps.
    { eapply steps_step; [reflexivity|apply steps_refl]. }
    assert (Forall (λ l, Py.endswith l closing = false)
              (("type: command" +:+ Py.nl) :: file st)) as Hall.
    { by repeat constructor. }
    split; [exact Hsteps|]. split; [exact Hall|].
    exact (proj2 (merge_termination Yaml.load ∅ unclosed) st "vm create" []
             ("type: command" +:+ Py.nl) Hsteps eq_refl Hall).
Defined.

(** C9 as stated fails: in this file the block start is followed by a line
    that ends with three double quotes, the last line, which has no newline
    after it; [merge] reads on past the end of the file for ever. *)
Lemma last_line_without_newline_diverges :
  let quotes := Py.dq +:+ Py.dq +:+ Py.dq in
  let lines := [helps_open +:+ "vm create" +:+ helps_close;
                "type: command" +:+ Py.nl; quotes] in
  (∀ pre line post,
     lines = pre ++ line :: post → block_start line →
     Exists (λ l, Py.endswith l quotes = true) post)
  ∧ ∀ r, ¬ merge Yaml.load ∅ lines r.
Proof.
  intros quotes lines. split.
  - intros pre line post Heq [Hstart _].
    destruct pre as [|l1 [|l2 [|l3 pre]]]; simplify_eq/=.
    + apply Exists_cons_tl, Exists_cons_hd. reflexivity.
    + destruct pre; simplify_eq.
  - intros r Hr.
    eapply (unclosed_block_diverges Yaml.load ∅
              (State [quotes] [helps_open +:+ "vm create" +:+ helps_close]
                 (Inner "vm create" [] ("type: command" +:+ Py.nl)))).
    + reflexivity.
    + by repeat constructor.
    + eapply runs_step_inv; [|exact Hr]. reflexivity.
Qed.

(** ** What [merge] writes *)




(** ** The lines of a text *)










Section Written.
Context (yaml_load : string → result help_doc) (helps : gmap string help_doc).

Local Abbreviation round := (step yaml_load helps).
Local Abbreviation ends := (runs yaml_load helps).

(** The rounds that go on, case by case. *)
Lemma step_cases st st' :
  round st = inl st' →
  (∃ line rest,
     at_ st = Outer ∧ file st = line :: rest
     ∧ Py.startswith line helps_open = false
     ∧ st' = State rest (buffer st ++ [line]) Outer)
  ∨ (∃ line rest g,
       at_ st = Outer ∧ file st = line :: rest
       ∧ Py.startswith line helps_open = true ∧ search_helps line = Some g
       ∧ st' = State (readline rest).2 (buffer st ++ [line])
                 (Inner (Py.strip g) [] (readline rest).1))
  ∨ (∃ cmd raw line,
       at_ st = Inner cmd raw line ∧ Py.endswith line closing = false
       ∧ st' = State (readline (file st)).2 (buffer st)
                 (Inner cmd (raw ++ [line]) (readline (file st)).1))
  ∨ (∃ cmd raw line added,
       at_ st = Inner cmd raw line ∧ is_closing line
       ∧ st' = State (file st) (buffer st ++ raw ++ added ++ [line]) Outer
       ∧ (helps !! cmd = None → added = [])
       ∧ ends_nl (Py.join added)).
Proof.
  destruct st as [file buffer [|cmd raw line]]; simpl.
  - unfold step. simpl. destruct file as [|line rest]; [done|].
    destruct (Py.startswith line helps_open) eqn:Hstart; simpl.
    + destruct (search_helps line) as [g|] eqn:Hg; [|done].
      destruct (readline rest) as [line' rest'] eqn:Hrl. intros [= <-].
      right; left. exists line, rest, g. by rewrite Hrl.
    + intros [= <-]. left. by exists line, rest.
  - destruct (Py.endswith line closing) eqn:Hline.
    + destruct (step_inner_closing yaml_load helps file buffer cmd raw line Hline)
        as [(added & -> & Hadded & Hnl)|(e & -> & _)]; [|done].
      intros [= <-]. do 3 right. by exists cmd, raw, line, added.
    + rewrite (step_inner_not_closing yaml_load helps
                 (State file buffer (Inner cmd raw line)) cmd raw line eq_refl Hline).
      intros [= <-]. right; right; left. by exists cmd, raw, line.
Qed.




Lemma readline_subseteq (file : list string) line :
  line ∈ (readline file).2 → line ∈ file.
Proof. destruct file; simpl; [done|]. by apply list_elem_of_further. Qed.




End Written.



(** * Further properties *)

(** ** More on grouping *)

Lemma dict_get_append formatted key key' ex :
  dict_get (dict_append formatted key' ex) key
  = if decide (key' = key) then Some (default [] (dict_get formatted key) ++ [ex])
    else dict_get formatted key.
Proof.
  induction formatted as [|[k exs] rest IH]; simpl.
  - by destruct (decide (key' = key)).
  - destruct (decide (k = key')) as [->|Hne]; simpl.
    + by destruct (decide (key' = key)).
    + rewrite IH. destruct (decide (k = key)) as [->|?]; [|done].
      by rewrite decide_False.
Qed.

Lemma dict_get_elem_of formatted key exs :
  NoDup formatted.*1 → dict_get formatted key = Some exs ↔ (key, exs) ∈ formatted.
Proof.
  induction formatted as [|[k l] rest IH]; csimpl; intros Hnd.
  - split; [done|]. by intros ?%elem_of_nil.
  - apply NoDup_cons in Hnd as [Hk Hnd]. rewrite elem_of_cons, <-(IH Hnd).
    destruct (decide (k = key)) as [->|Hne].
    + split; [intros [= ->]; by left|]. intros [[= ->]|Hin]; [done|].
      apply IH in Hin; [|done]. destruct Hk.
      apply list_elem_of_fmap. by exists (key, exs).
    + split; [by right|]. by intros [[= -> ->]|?].
Qed.

Lemma dict_append_concat formatted key ex :
  concat (dict_append formatted key ex).*2 ≡ₚ concat formatted.*2 ++ [ex].
Proof.
  induction formatted as [|[k exs] rest IH]; csimpl; [done|].
  destruct (decide (k = key)) as [->|Hne]; csimpl.
  - rewrite <-!app_assoc. f_equiv. apply Permutation_app_comm.
  - by rewrite IH, app_assoc.
Qed.

Section MoreGrouping.
Context (cmd : string).

Lemma format_examples_from_first_seen exs acc formatted :
  format_examples_from cmd exs acc = Returns formatted →
  ∃ keys, mapM (λ ex, parameter_names cmd (text ex)) exs = Returns keys
          ∧ formatted.*1
            = foldl (λ seen k, if decide (k ∈ seen) then seen else seen ++ [k])
                acc.*1 keys.
Proof.
  revert acc. induction exs as [|ex exs IH]; intros acc; simpl.
  - intros [= <-]. by exists [].
  - destruct (parameter_names cmd (text ex)) as [k|e]; simpl; [|done].
    intros (keys & -> & ->)%IH. exists (k :: keys). split; [done|].
    simpl. by rewrite dict_append_keys.
Qed.

Lemma format_examples_from_get exs acc formatted key :
  format_examples_from cmd exs acc = Returns formatted →
  default [] (dict_get formatted key)
  = default [] (dict_get acc key) ++ with_signature cmd key exs.
Proof.
  revert acc. unfold with_signature.
  induction exs as [|ex exs IH]; intros acc; simpl.
  - intros [= <-]. by rewrite app_nil_r.
  - destruct (parameter_names cmd (text ex)) as [k|e] eqn:Hk; simpl; [|done].
    intros ->%IH. rewrite dict_get_append, filter_cons, Hk.
    destruct (decide (k = key)) as [->|Hne].
    + rewrite decide_True by done. simpl. by rewrite <-app_assoc.
    + rewrite decide_False; [done|]. by intros [= ?].
Qed.

Lemma format_examples_from_concat exs acc formatted :
  format_examples_from cmd exs acc = Returns formatted →
  concat formatted.*2 ≡ₚ concat acc.*2 ++ exs.
Proof.
  revert acc. induction exs as [|ex exs IH]; intros acc; simpl.
  - intros [= <-]. by rewrite app_nil_r.
  - destruct (parameter_names cmd (text ex)) as [k|e]; simpl; [|done].
    intros ->%IH. rewrite dict_append_concat, <-app_assoc. done.
Qed.

Lemma format_examples_from_nonempty exs acc formatted :
  format_examples_from cmd exs acc = Returns formatted →
  Forall (λ g, g.2 ≠ []) acc → Forall (λ g, g.2 ≠ []) formatted.
Proof.
  revert acc. induction exs as [|ex exs IH]; intros acc; simpl.
  - by intros [= <-].
  - destruct (parameter_names cmd (text ex)) as [k|e]; simpl; [|done].
    intros Hf Hacc. eapply IH; [done|]. clear -Hacc.
    induction Hacc as [|[k' l] rest Hl Hrest IH']; simpl.
    + repeat constructor. done.
    + destruct (decide (k' = k)); constructor; simpl in *; try done.
      by destruct l.
Qed.
End MoreGrouping.

(** X1: the keys of the grouping are the signatures of the examples, each
    once, in the order in which they are first met. *)
Theorem format_examples_keys_first_seen (cmd : string) (exs : list example)
    (formatted : list (list string * list example)) :
  format_examples cmd exs = Returns formatted →
  ∃ keys, mapM (λ ex, parameter_names cmd (text ex)) exs = Returns keys
          ∧ formatted.*1 = first_seen keys
          ∧ NoDup formatted.*1.
Proof.
  intros Hf.
  destruct (format_examples_from_first_seen _ _ _ _ Hf) as (keys & Hkeys & Heq).
  exists keys. split_and!; [done..|].
  eapply format_examples_from_NoDup; [exact Hf|constructor].
Qed.

(** X2: a group of the grouping holds exactly the examples with the
    signature of its key, in the order of the list, and there is a group for
    every signature that some example has. *)
Theorem format_examples_groups (cmd : string) (exs : list example)
    (formatted : list (list string * list example)) (key : list string)
    (group : list example) :
  format_examples cmd exs = Returns formatted →
  (key, group) ∈ formatted ↔ group = with_signature cmd key exs ∧ group ≠ [].
Proof.
  intros Hf.
  assert (NoDup formatted.*1) as Hnd
    by (eapply format_examples_from_NoDup; [exact Hf|constructor]).
  pose proof (format_examples_from_get _ _ _ _ key Hf) as Hget. simpl in Hget.
  pose proof (format_examples_from_nonempty _ _ _ _ Hf (Forall_nil_2 _)) as Hne.
  rewrite <-(dict_get_elem_of _ _ _ Hnd). split.
  - intros Hg. rewrite Hg in Hget. simpl in Hget. split; [done|].
    apply dict_get_elem_of in Hg; [|done].
    rewrite Forall_forall in Hne. apply (Hne _ Hg).
  - intros [-> Hgroup]. destruct (dict_get formatted key) as [l|]; simpl in Hget.
    + by rewrite Hget.
    + by rewrite <-Hget in Hgroup.
Qed.

(** X3: the groups together hold every example once: nothing is lost and
    nothing is doubled by the grouping. *)
Theorem format_examples_partition (cmd : string) (exs : list example)
    (formatted : list (list string * list example)) :
  format_examples cmd exs = Returns formatted →
  concat formatted.*2 ≡ₚ exs.
Proof. intros Hf. by rewrite (format_examples_from_concat _ _ _ _ Hf). Qed.

Lemma format_examples_keys_first_seen_witness :
  let a := Example_ "A" "az vm create --name x" false in
  let b := Example_ "B" "az vm create --name y --image z" false in
  let c := Example_ "C" "az vm create --name w" true in
  let formatted := [(["--name"], [a; c]); (["--image"; "--name"], [b])] in
  format_examples "vm create" [a; b; c] = Returns formatted
  ∧ ∃ keys,
      mapM (λ ex, parameter_names "vm create" (text ex)) [a; b; c] = Returns keys
      ∧ formatted.*1 = first_seen keys
      ∧ NoDup formatted.*1.
Proof.
  intros a b c formatted.
  assert (format_examples "vm create" [a; b; c] = Returns formatted) as Hf
    by (vm_compute; reflexivity).
  split; [exact Hf|].
  exact (format_examples_keys_first_seen "vm create" [a; b; c] formatted Hf).
Defined.

Lemma format_examples_groups_witness :
  let a := Example_ "A" "az vm create --name x" false in
  let b := Example_ "B" "az vm create --name y --image z" false in
  let c := Example_ "C" "az vm create --name w" true in
  let formatted := [(["--name"], [a; c]); (["--image"; "--name"], [b])] in
  format_examples "vm create" [a; b; c] = Returns formatted
  ∧ [a; c] = with_signature "vm create" ["--name"] [a; b; c]
  ∧ (["--name"], [a; c]) ∈ formatted.
Proof.
  intros a b c formatted.
  assert (format_examples "vm create" [a; b; c] = Returns formatted) as Hf
    by (vm_compute; reflexivity).
  assert ([a; c] = with_signature "vm create" ["--name"] [a; b; c]) as Hg
    by (vm_compute; reflexivity).
  split; [exact Hf|]. split; [exact Hg|].
  apply (format_examples_groups "vm create" [a; b; c] formatted ["--name"] [a; c] Hf).
  split; [exact Hg|done].
Defined.

Lemma format_examples_partition_witness :
  let a := Example_ "A" "az vm create --name x" false in
  let b := Example_ "B" "az vm create --name y --image z" false in
  let c := Example_ "C" "az vm create --name w" true in
  let formatted := [(["--name"], [a; c]); (["--image"; "--name"], [b])] in
  format_examples "vm create" [a; b; c] = Returns formatted
  ∧ concat formatted.*2 ≡ₚ [a; b; c].
Proof.
  intros a b c formatted.
  assert (format_examples "vm create" [a; b; c] = Returns formatted) as Hf
    by (vm_compute; reflexivity).
  split; [exact Hf|].
  exact (format_examples_partition "vm create" [a; b; c] formatted Hf).
Defined.

(** ** More on signatures *)

(** X5: two example texts have the same signature exactly when their
    flags, stripped, are the same up to order: neither the order of the
    parameters nor their values count. *)
Theorem signature_eq_iff_same_flags (cmd txt1 txt2 : string) (i1 i2 : nat)
    (tokens1 tokens2 : list string) :
  Py.find txt1 cmd = Some i1 →
  Shlex.split (Py.slice_from (i1 + Py.len cmd) txt1) = Returns tokens1 →
  Py.find txt2 cmd = Some i2 →
  Shlex.split (Py.slice_from (i2 + Py.len cmd) txt2) = Returns tokens2 →
  parameter_names cmd txt1 = parameter_names cmd txt2
  ↔ Py.strip <$> filter (λ p, Py.startswith p "--") tokens1
    ≡ₚ Py.strip <$> filter (λ p, Py.startswith p "--") tokens2.
Proof.
  intros Hi1 Hs1 Hi2 Hs2.
  rewrite (parameter_names_eq _ _ _ Hi1), (parameter_names_eq _ _ _ Hi2), Hs1, Hs2.
  simpl. unfold sort_names. split.
  - intros [= Heq]. by rewrite <-(merge_sort_Permutation String.le), Heq,
      merge_sort_Permutation.
  - intros Hperm. f_equal.
    apply (StronglySorted_unique String.le);
      [apply (StronglySorted_merge_sort _)..|].
    by rewrite !merge_sort_Permutation.
Qed.

Lemma signature_eq_iff_same_flags_witness :
  let txt1 := "az vm create --name x --image y" in
  let txt2 := "az vm create --image UbuntuLTS -g rg --name MyVm" in
  Py.find txt1 "vm create" = Some 3
  ∧ Shlex.split (Py.slice_from (3 + Py.len "vm create") txt1)
    = Returns ["--name"; "x"; "--image"; "y"]
  ∧ Py.find txt2 "vm create" = Some 3
  ∧ Shlex.split (Py.slice_from (3 + Py.len "vm create") txt2)
    = Returns ["--image"; "UbuntuLTS"; "-g"; "rg"; "--name"; "MyVm"]
  ∧ parameter_names "vm create" txt1 = parameter_names "vm create" txt2.
Proof.
  intros txt1 txt2.
  assert (Py.find txt1 "vm create" = Some 3) as H1 by reflexivity.
  assert (Shlex.split (Py.slice_from (3 + Py.len "vm create") txt1)
          = Returns ["--name"; "x"; "--image"; "y"]) as H2 by reflexivity.
  assert (Py.find txt2 "vm create" = Some 3) as H3 by reflexivity.
  assert (Shlex.split (Py.slice_from (3 + Py.len "vm create") txt2)
          = Returns ["--image"; "UbuntuLTS"; "-g"; "rg"; "--name"; "MyVm"])
    as H4 by reflexivity.
  split_and!; [done..|].
  apply (signature_eq_iff_same_flags "vm create" txt1 txt2 3 3 _ _ H1 H2 H3 H4).
  vm_compute. apply Permutation_swap.
Defined.

(** *** Plain words *)

Lemma all_chars_app p s t :
  Yaml.all_chars p (s +:+ t) = Yaml.all_chars p s && Yaml.all_chars p t.
Proof.
  induction s as [|c s IH]; [done|]. rewrite app_cons. simpl.
  by rewrite IH, andb_assoc.
Qed.

Lemma tokens_word w rest quoted token :
  Yaml.all_chars word_char w = true →
  Shlex.tokens (w +:+ rest) Shlex.Word quoted token
  = Shlex.tokens rest Shlex.Word quoted (token +:+ w).
Proof.
  revert token. induction w as [|c w IH]; intros token; simpl.
  - intros _. by rewrite app_nil_l, str_app_nil_r.
  - intros [Hc Hw]%andb_prop. unfold word_char in Hc.
    apply andb_prop in Hc as [[[_ Hws]%andb_prop Hq]%andb_prop He].
    apply negb_true_iff in Hws, Hq, He. rewrite Hws, Hq, He.
    rewrite (IH _ Hw). unfold Shlex.push. by rewrite str_app_assoc.
Qed.

Lemma tokens_start_word w rest :
  plain_word w →
  Shlex.tokens (w +:+ rest) Shlex.Ws false ""
  = Shlex.tokens rest Shlex.Word false w.
Proof.
  intros [Hne Hw]. destruct w as [|c w]; [done|].
  simpl in Hw. apply andb_prop in Hw as [Hc Hw]. rewrite app_cons. simpl.
  unfold word_char in Hc.
  apply andb_prop in Hc as [[[_ Hws]%andb_prop Hq]%andb_prop He].
  apply negb_true_iff in Hws, Hq, He. rewrite Hws, Hq, He.
  by rewrite (tokens_word _ _ _ _ Hw).
Qed.

Lemma tokens_spaced_word ws w :
  plain_word w → Forall plain_word ws →
  Shlex.tokens (spaced ws) Shlex.Word false w = Returns (w :: ws).
Proof.
  intros Hw Hws. revert w Hw.
  induction Hws as [|w' ws Hw' _ IH]; intros w Hw.
  - simpl. destruct w; [by destruct Hw|done].
  - unfold spaced. rewrite fmap_cons, join_cons, str_app_assoc, app_cons, app_nil_l.
    fold (spaced ws). cbn [Shlex.tokens Shlex.whitespace Ascii.eqb Bool.eqb orb].
    destruct w as [|c w]; [by destruct Hw|]. cbn [Shlex.nonempty orb Shlex.emit].
    rewrite (tokens_start_word _ _ Hw'), (IH _ Hw'). done.
Qed.

Lemma split_spaced ws :
  Forall plain_word ws → Shlex.split (spaced ws) = Returns ws.
Proof.
  intros Hws. destruct Hws as [|w ws Hw Hws]; [done|].
  unfold Shlex.split, spaced.
  rewrite fmap_cons, join_cons, str_app_assoc, app_cons, app_nil_l.
  fold (spaced ws). cbn [Shlex.tokens Shlex.whitespace Ascii.eqb Bool.eqb orb
                        Shlex.nonempty].
  by rewrite (tokens_start_word _ _ Hw), (tokens_spaced_word _ _ Hw Hws).
Qed.

Lemma lstrip_plain w : plain_word w → Py.lstrip w = w.
Proof.
  intros [Hne Hw]. destruct w as [|c w]; [done|]. simpl in *.
  apply andb_prop in Hw as [Hc _]. unfold word_char in Hc.
  apply andb_prop in Hc as [[[Hsp _]%andb_prop _]%andb_prop _].
  apply negb_true_iff in Hsp. by rewrite Hsp.
Qed.

Lemma rstrip_plain w : Yaml.all_chars word_char w = true → Py.rstrip w = w.
Proof.
  induction w as [|c w IH]; [done|]. simpl.
  intros [Hc Hw]%andb_prop. rewrite (IH Hw). unfold word_char in Hc.
  apply andb_prop in Hc as [[[Hsp _]%andb_prop _]%andb_prop _].
  apply negb_true_iff in Hsp. rewrite Hsp. by destruct w.
Qed.

Lemma strip_plain w : plain_word w → Py.strip w = w.
Proof.
  intros Hw. unfold Py.strip. rewrite (lstrip_plain _ Hw).
  apply rstrip_plain, Hw.
Qed.

(** X6: when the text after the command is a row of plain words (no
    whitespace inside, no quotes, no backslash), each after one space, the
    signature is the sorted list of the words that begin with two dashes. *)
Theorem parameter_names_plain_words (cmd txt : string) (i : nat) (ws : list string) :
  Py.find txt cmd = Some i →
  Py.slice_from (i + Py.len cmd) txt = spaced ws →
  Forall plain_word ws →
  parameter_names cmd txt
  = Returns (sort_names (filter (λ p, Py.startswith p "--") ws)).
Proof.
  intros Hi Hrest Hws.
  rewrite (parameter_names_eq _ _ _ Hi), Hrest, (split_spaced _ Hws). simpl.
  do 2 f_equal. clear Hrest. induction Hws as [|w ws Hw _ IH]; [done|].
  rewrite filter_cons. destruct (decide _); [|done].
  by rewrite fmap_cons, IH, strip_plain.
Qed.

Lemma parameter_names_plain_words_witness :
  let txt := "az vm create --name x -g rg --image y" in
  let ws := ["--name"; "x"; "-g"; "rg"; "--image"; "y"] in
  Py.find txt "vm create" = Some 3
  ∧ Py.slice_from (3 + Py.len "vm create") txt = spaced ws
  ∧ Forall plain_word ws
  ∧ parameter_names "vm create" txt = Returns ["--image"; "--name"].
Proof.
  intros txt ws.
  assert (Py.find txt "vm create" = Some 3) as H1 by reflexivity.
  assert (Py.slice_from (3 + Py.len "vm create") txt = spaced ws) as H2
    by reflexivity.
  assert (Forall plain_word ws) as H3 by (repeat constructor; done).
  split_and!; [done..|].
  exact (parameter_names_plain_words "vm create" txt 3 ws H1 H2 H3).
Defined.

(** *** Quotes left open *)

Lemma emit_raise token k e : k = Raises e → Shlex.emit token k = Raises e.
Proof. by intros ->. Qed.

Lemma tokens_quote_open after quoted token :
  Yaml.all_chars (λ c, negb (Ascii.eqb c "'")) after = true →
  Shlex.tokens after (Shlex.Quote "'") quoted token = Raises ValueError.
Proof.
  revert quoted token. induction after as [|c s IH]; intros quoted token; [done|].
  simpl. intros [Hc Hs]%andb_prop. apply negb_true_iff in Hc. rewrite Hc.
  rewrite andb_false_r. by apply IH.
Qed.

Lemma tokens_unquoted_prefix before rest st quoted token :
  Yaml.all_chars unquoted_char before = true →
  st = Shlex.Ws ∨ st = Shlex.Word →
  (∀ st' quoted' token', st' = Shlex.Ws ∨ st' = Shlex.Word →
     Shlex.tokens rest st' quoted' token' = Raises ValueError) →
  Shlex.tokens (before +:+ rest) st quoted token = Raises ValueError.
Proof.
  intros Hb Hst Hrest. revert st quoted token Hst.
  induction before as [|c s IH]; intros st quoted token Hst.
  - rewrite app_nil_l. by apply Hrest.
  - simpl in Hb. apply andb_prop in Hb as [Hc Hs]. unfold unquoted_char in Hc.
    apply andb_prop in Hc as [Hq He]. apply negb_true_iff in Hq, He.
    rewrite app_cons.
    destruct Hst as [-> | ->]; simpl; rewrite Hq, He;
      destruct (Shlex.whitespace c); try destruct (_ || _);
      try apply emit_raise; apply IH; auto.
Qed.

Lemma split_unclosed_quote before after :
  Yaml.all_chars unquoted_char before = true →
  Yaml.all_chars (λ c, negb (Ascii.eqb c "'")) after = true →
  Shlex.split (before +:+ String "'" after) = Raises ValueError.
Proof.
  intros Hb Ha. apply tokens_unquoted_prefix; [done|by left|].
  intros st quoted token [-> | ->]; simpl; by apply tokens_quote_open.
Qed.

Lemma format_examples_from_raising cmd exs acc ex :
  ex ∈ exs → parameter_names cmd (text ex) = Raises ValueError →
  format_examples_from cmd exs acc = Raises ValueError.
Proof.
  intros Hin Hr. revert acc.
  induction Hin as [ex exs|ex ex' exs Hin IH]; intros acc; simpl.
  - by rewrite Hr.
  - destruct (parameter_names cmd (text ex')) as [names|e] eqn:Hp; simpl.
    + by apply IH.
    + by apply parameter_names_raises in Hp as ->.
Qed.

(** X4: an example whose parameters open a single quote that is never
    closed (with no quote or backslash before it) has no signature:
    [shlex.split] raises [ValueError], and so does [format_examples] on any
    list that holds the example. *)
Theorem unclosed_quote_aborts (cmd : string) (exs : list example) (ex : example)
    (i : nat) (before after : string) :
  ex ∈ exs →
  Py.find (text ex) cmd = Some i →
  Py.slice_from (i + Py.len cmd) (text ex) = before +:+ String "'" after →
  Yaml.all_chars unquoted_char before = true →
  Yaml.all_chars (λ c, negb (Ascii.eqb c "'")) after = true →
  parameter_names cmd (text ex) = Raises ValueError
  ∧ format_examples cmd exs = Raises ValueError.
Proof.
  intros Hin Hi Hrest Hb Ha.
  assert (parameter_names cmd (text ex) = Raises ValueError) as Hr.
  { rewrite (parameter_names_eq _ _ _ Hi), Hrest.
    by rewrite (split_unclosed_quote _ _ Hb Ha). }
  split; [done|]. by eapply format_examples_from_raising.
Qed.

Lemma unclosed_quote_aborts_witness :
  let ex := Example_ "Create a VM" "az vm create --name 'my vm --image y" false in
  let good := Example_ "List" "az vm create --name x" false in
  good ∈ [good; ex] ∧ ex ∈ [good; ex]
  ∧ Py.find (text ex) "vm create" = Some 3
  ∧ Py.slice_from (3 + Py.len "vm create") (text ex)
    = " --name " +:+ String "'" "my vm --image y"
  ∧ format_examples "vm create" [good; ex] = Raises ValueError.
Proof.
  intros ex good.
  assert (ex ∈ [good; ex]) as Hin by (apply list_elem_of_further, list_elem_of_here).
  split_and!; [apply list_elem_of_here|done|reflexivity|reflexivity|].
  exact (proj2 (unclosed_quote_aborts "vm create" [good; ex] ex 3 " --name "
                  "my vm --image y" Hin eq_refl eq_refl eq_refl eq_refl)).
Defined.

(** ** More on indent inference *)

Lemma len_spaces n : Py.len (Py.spaces n) = n.
Proof. unfold Py.len. induction n as [|n IH]; simpl; by rewrite ?IH. Qed.

Lemma blank_spaces n : blank (Py.spaces n).
Proof. unfold blank. by rewrite len_spaces. Qed.

Lemma spaces_add a b : Py.spaces a +:+ Py.spaces b = Py.spaces (a + b).
Proof. induction a as [|a IH]; [done|]. simpl. by rewrite app_cons, IH. Qed.

Lemma indent_width_spaces s w :
  indent_width s = Returns w → Py.slice_to w s = Py.spaces w.
Proof.
  unfold indent_width. destruct (Py.search_non_space s) as [w'|] eqn:Hs; [|done].
  intros [= <-]. by apply search_non_space_Some.
Qed.

(** X7: whatever the block, the two indentations that
    [calculate_example_yaml_indent] returns consist of spaces only. *)
Theorem calculate_indent_spaces (raw : list string) (outer inner : string) :
  calculate_example_yaml_indent raw = Returns (outer, inner) →
  blank outer ∧ blank inner.
Proof.
  unfold calculate_example_yaml_indent.
  destruct (list_get raw 0) as [first|]; simpl; [|done].
  destruct (default _ _) as [idx key].
  destruct (indent_width key) as [w|] eqn:Hw; simpl; [|done].
  rewrite (indent_width_spaces _ _ Hw).
  destruct (Py.contains key "examples").
  - destruct (list_get raw (idx + 1)) as [next|]; simpl; [|done].
    destruct (indent_width next) as [w'|] eqn:Hw'; simpl; [|done].
    rewrite (indent_width_spaces _ _ Hw'). intros [= <- <-].
    split; apply blank_spaces.
  - intros [= <- <-]. split; [apply blank_spaces|].
    change (blank (Py.spaces w +:+ Py.spaces 2)).
    rewrite (spaces_add w 2). apply blank_spaces.
Qed.

Lemma calculate_indent_spaces_witness :
  let raw := ["  type: command" +:+ Py.nl;
              "  short-summary: Create a VM." +:+ Py.nl] in
  calculate_example_yaml_indent raw = Returns ("  ", "    ")
  ∧ blank "  " ∧ blank "    ".
Proof.
  intros raw.
  assert (calculate_example_yaml_indent raw = Returns ("  ", "    ")) as Hc
    by reflexivity.
  split; [exact Hc|].
  exact (calculate_indent_spaces raw "  " "    " Hc).
Defined.

Lemma indent_examples_found_witness :
  let raw := ["type: command" +:+ Py.nl; "  examples:" +:+ Py.nl;
              "      - name: Create a VM" +:+ Py.nl] in
  find_examples_line raw 0 = Some (1, "  examples:" +:+ Py.nl)
  ∧ raw !! (1 + 1) = Some ("      - name: Create a VM" +:+ Py.nl)
  ∧ ¬ blank ("      - name: Create a VM" +:+ Py.nl)
  ∧ calculate_example_yaml_indent raw = Returns ("  ", "      ").
Proof.
  intros raw.
  assert (¬ blank ("      - name: Create a VM" +:+ Py.nl)) as Hnb by (by intros [=]).
  split_and!; [reflexivity|reflexivity|exact Hnb|].
  exact (indent_examples_found raw 1 ("  examples:" +:+ Py.nl)
           ("      - name: Create a VM" +:+ Py.nl) eq_refl eq_refl Hnb).
Defined.

Lemma indent_examples_absent_witness :
  let raw := ["   type: command" +:+ Py.nl;
              "   short-summary: Create a VM." +:+ Py.nl] in
  find_examples_line raw 0 = None
  ∧ raw !! 0 = Some ("   type: command" +:+ Py.nl)
  ∧ ¬ blank ("   type: command" +:+ Py.nl)
  ∧ Py.contains ("   type: command" +:+ Py.nl) "examples" = false
  ∧ calculate_example_yaml_indent raw = Returns ("   ", "     ").
Proof.
  intros raw.
  assert (¬ blank ("   type: command" +:+ Py.nl)) as Hnb by (by intros [=]).
  split_and!; [reflexivity|reflexivity|exact Hnb|reflexivity|].
  exact (indent_examples_absent raw ("   type: command" +:+ Py.nl)
           eq_refl eq_refl Hnb eq_refl).
Defined.

(** ** More on the writer *)

Lemma escape_app s t :
  Py.escape_backslashes (s +:+ t)
  = Py.escape_backslashes s +:+ Py.escape_backslashes t.
Proof.
  induction s as [|c s IH]; [done|]. rewrite app_cons. simpl.
  destruct (Ascii.eqb c "092"); by rewrite !app_cons, IH.
Qed.

Lemma escape_no_backslash s : no_backslash s → Py.escape_backslashes s = s.
Proof.
  unfold no_backslash. induction s as [|c s IH]; [done|]. simpl.
  intros [Hc Hs]%andb_prop. apply negb_true_iff in Hc. by rewrite Hc, IH.
Qed.

Lemma occurs_escape cmd s :
  no_backslash cmd → occurs cmd s → occurs cmd (Py.escape_backslashes s).
Proof.
  intros Hcmd (pre & post & ->).
  exists (Py.escape_backslashes pre), (Py.escape_backslashes post).
  by rewrite !escape_app, (escape_no_backslash cmd).
Qed.

Lemma find_Some_occurs s p i : Py.find s p = Some i → occurs p s.
Proof.
  intros Hf. apply contains_true. rewrite contains_find, Hf.
  apply bool_decide_eq_true. by eexists.
Qed.

Lemma parameter_names_returns_occurs cmd txt names :
  parameter_names cmd txt = Returns names → occurs cmd txt.
Proof.
  unfold parameter_names, Py.index.
  destruct (Py.find txt cmd) as [i|] eqn:Hf; [|done]. intros _.
  by eapply find_Some_occurs.
Qed.

Lemma rendered_example_returns inner cmd ex :
  no_backslash cmd → occurs cmd (text ex) →
  ∃ pieces, rendered_example inner cmd ex = Returns pieces.
Proof.
  intros Hcmd Hocc%(occurs_escape _ _ Hcmd).
  unfold rendered_example, parameters_of, Py.index.
  destruct (Py.find _ cmd) as [i|] eqn:Hf; [by eexists|].
  by apply find_None in Hf.
Qed.

Lemma render_group_returns inner cmd exs :
  no_backslash cmd → Forall (λ ex, occurs cmd (text ex)) exs →
  ∃ pieces, render_group inner cmd exs = Returns pieces.
Proof.
  intros Hcmd Hall. unfold render_group.
  assert (∃ pss, mapM (rendered_example inner cmd) exs = Returns pss) as [pss ->];
    [|by eexists].
  induction Hall as [|ex exs Hex _ [pss IH]]; [by eexists|]. simpl.
  destruct (rendered_example_returns inner cmd ex Hcmd Hex) as [ps ->].
  rewrite IH. by eexists.
Qed.



(** X11: writing a list of examples is writing its front part and then,
    into the buffer that comes back, the rest; an exception in the front
    part is the exception of the whole. *)
Theorem write_examples_app (inner cmd : string) (exs1 exs2 : list example)
    (buffer : list string) :
  write_examples inner cmd (exs1 ++ exs2) buffer
  = (buffer' ← write_examples inner cmd exs1 buffer;
     write_examples inner cmd exs2 buffer').
Proof.
  revert buffer. induction exs1 as [|ex exs1 IH]; intros buffer; [done|].
  rewrite <-app_comm_cons, !write_examples_cons.
  destruct (rendered_example inner cmd ex) as [pieces|e]; simpl; [|done].
  apply IH.
Qed.

(** ** More on [merge_examples] *)

Lemma format_examples_from_returns_inv cmd exs acc formatted :
  format_examples_from cmd exs acc = Returns formatted →
  Forall (λ ex, ∃ names, parameter_names cmd (text ex) = Returns names) exs.
Proof.
  revert acc. induction exs as [|ex exs IH]; intros acc; simpl; [done|].
  destruct (parameter_names cmd (text ex)) as [k|e] eqn:Hk; simpl; [|done].
  intros Hf. constructor; [by exists k|by eapply IH].
Qed.

Lemma mapM_render_group_returns inner cmd (groups : list (list string * list example)) :
  no_backslash cmd →
  Forall (λ g, Forall (λ ex, occurs cmd (text ex)) g.2) groups →
  ∃ pieces, mapM (λ g, render_group inner cmd g.2) groups = Returns pieces.
Proof.
  intros Hcmd Hall. induction Hall as [|g groups Hg _ [pieces IH]]; [by eexists|].
  simpl. destruct (render_group_returns inner cmd g.2 Hcmd Hg) as [ps ->].
  rewrite IH. by eexists.
Qed.

Lemma render_group_app inner cmd exs1 exs2 :
  render_group inner cmd (exs1 ++ exs2)
  = (ps ← render_group inner cmd exs1;
     qs ← render_group inner cmd exs2; mret (ps ++ qs)).
Proof.
  unfold render_group. induction exs1 as [|ex exs1 IH]; simpl.
  - by destruct (mapM _ exs2).
  - destruct (rendered_example inner cmd ex) as [p|e]; simpl; [|done].
    destruct (mapM _ (exs1 ++ exs2)) as [pss|e]; simpl in *;
      destruct (mapM _ exs1) as [ps1|e1]; simpl in *; try done;
      destruct (mapM _ exs2) as [ps2|e2]; simpl in *; try done.
    injection IH as ->. by rewrite app_assoc.
Qed.

Lemma mapM_render_group_concat inner cmd (groups : list (list string * list example))
    pieces :
  mapM (λ g, render_group inner cmd g.2) groups = Returns pieces →
  render_group inner cmd (concat groups.*2) = Returns (concat pieces).
Proof.
  revert pieces. induction groups as [|g groups IH]; intros pieces.
  - by intros [= <-].
  - csimpl. destruct (render_group inner cmd g.2) as [ps|e] eqn:Hg; [|done].
    simpl. destruct (mapM _ groups) as [pss|e] eqn:Hm; [|done].
    intros [= <-]. rewrite render_group_app, Hg, (IH _ eq_refl). done.
Qed.

(** X12: for a command without a backslash, [merge_examples] returns
    exactly when the block loads, the command line of every existing and
    every generated example can be split into a signature, and the
    indentation of the block can be inferred; nothing else makes it raise. *)
Theorem merge_examples_returns_iff (yaml_load : string → result help_doc)
    (cmd : string) (raw : list string) (generated : list example)
    (buffer : list string) :
  no_backslash cmd →
  (∃ out, merge_examples yaml_load cmd raw (HelpDoc (Some generated)) buffer
          = Returns out)
  ↔ ∃ doc indents,
      yaml_load (Py.join raw) = Returns doc
      ∧ Forall (λ ex, ∃ names, parameter_names cmd (text ex) = Returns names)
          (default [] (examples doc) ++ generated)
      ∧ calculate_example_yaml_indent raw = Returns indents.
Proof.
  intros Hcmd. rewrite merge_examples_spec. split.
  - intros [out Hout].
    destruct (yaml_load _) as [doc|e]; [|done]. simpl in Hout.
    destruct (format_examples cmd (default _ _)) as [cli|e] eqn:Hcli; [|done].
    destruct (format_examples cmd generated) as [ala|e] eqn:Hala; [|done].
    destruct (calculate_example_yaml_indent raw) as [indents|e]; [|done].
    exists doc, indents. split_and!; [done| |done].
    apply Forall_app. split; by eapply format_examples_from_returns_inv.
  - intros (doc & indents & -> & [Hold Hnew]%Forall_app & ->). simpl.
    destruct (format_examples_from_returns cmd _ [] Hold) as [cli Hcli].
    destruct (format_examples_from_returns cmd _ [] Hnew) as [ala Hala].
    unfold format_examples. rewrite Hcli, Hala. simpl.
    destruct (mapM_render_group_returns indents.2 cmd (fresh cli ala) Hcmd)
      as [pieces ->]; [|by eexists].
    apply Forall_forall. intros g [_ Hg]%list_elem_of_filter.
    pose proof (format_examples_from_members cmd (λ _, True) _ _ _ Hala) as Hmem.
    assert (Forall (λ _ : example, True) generated) as Htrue
      by by apply Forall_forall.
    specialize (Hmem Htrue (Forall_nil_2 _)). rewrite Forall_forall in Hmem.
    eapply Forall_impl; [exact (Hmem g Hg)|]. simpl. intros ex [Hn _].
    by eapply parameter_names_returns_occurs.
Qed.

Lemma merge_examples_returns_iff_witness :
  let raw := ["type: command" +:+ Py.nl; "short-summary: Create a VM." +:+ Py.nl] in
  let generated := [Example_ "Create" "az vm create --name y" false] in
  no_backslash "vm create"
  ∧ ((∃ out, merge_examples Yaml.load "vm create" raw (HelpDoc (Some generated)) raw
             = Returns out)
     ↔ ∃ doc indents,
         Yaml.load (Py.join raw) = Returns doc
         ∧ Forall (λ ex, ∃ names,
                     parameter_names "vm create" (text ex) = Returns names)
             (default [] (examples doc) ++ generated)
         ∧ calculate_example_yaml_indent raw = Returns indents)
  ∧ merge_examples Yaml.load "vm create" raw (HelpDoc (Some generated)) raw
    = Returns (raw ++ ["examples:" +:+ Py.nl;
                       "  - name: Create" +:+ Py.nl; "    text: |" +:+ Py.nl;
                       "        az vm create"; " --name y"; Py.nl]).
Proof.
  intros raw generated.
  assert (no_backslash "vm create") as Hcmd by reflexivity.
  split; [exact Hcmd|]. split; [|vm_compute; reflexivity].
  exact (merge_examples_returns_iff Yaml.load "vm create" raw generated raw Hcmd).
Defined.

(** X13: what [merge_examples] appends, after the [examples:] key where
    the block has no example yet, is one rendering for each generated
    example whose signature no existing example has: none of them is left
    out and none is written twice. *)
Theorem merge_examples_writes_each_once (yaml_load : string → result help_doc)
    (cmd : string) (raw : list string) (generated : list example)
    (buffer : list string) (doc : help_doc) (out : list string) :
  yaml_load (Py.join raw) = Returns doc →
  merge_examples yaml_load cmd raw (HelpDoc (Some generated)) buffer = Returns out →
  let existing := default [] (examples doc) in
  ∃ indents written pieces,
    calculate_example_yaml_indent raw = Returns indents
    ∧ written ≡ₚ filter (signature_in cmd (λ names, ¬ known cmd existing names))
                   generated
    ∧ mapM (rendered_example indents.2 cmd) written = Returns pieces
    ∧ out = buffer
            ++ (if bool_decide (existing = [] ∧ written ≠ [])
                then [examples_key indents.1] else [])
            ++ concat pieces.
Proof.
  intros Hdoc Hout existing.
  destruct (merge_examples_groups _ _ _ _ _ _ _ Hdoc Hout)
    as (indents & groups & pieces & Hind & Hgroups & Hpieces & ->).
  apply mapM_render_group_concat in Hpieces. unfold render_group in Hpieces.
  destruct (mapM _ (concat groups.*2)) as [pss|e] eqn:Hm; [|done].
  injection Hpieces as Hpieces.
  exists indents, (concat groups.*2), pss. split_and!; [done| |done|].
  - by rewrite (format_examples_from_concat _ _ _ _ Hgroups).
  - rewrite Hpieces. f_equal.
    rewrite (bool_decide_ext (existing = [] ∧ concat groups.*2 ≠ [])
               (existing = [] ∧ groups ≠ [])); [done|].
    pose proof (format_examples_from_nonempty _ _ _ _ Hgroups (Forall_nil_2 _))
      as Hne.
    split; intros [? Hg]; (split; [done|]); intros Heq; apply Hg.
    + subst. done.
    + destruct groups as [|[k l] groups]; [done|]. apply Forall_cons in Hne as [Hl _].
      csimpl in Heq. by apply app_eq_nil in Heq as [-> _].
Qed.

Lemma merge_examples_writes_each_once_witness :
  let raw := ["type: command" +:+ Py.nl; "examples:" +:+ Py.nl;
              "  - name: Create a VM" +:+ Py.nl; "    text: |" +:+ Py.nl;
              "        az vm create --name x" +:+ Py.nl] in
  let old := Example_ "Create a VM" ("az vm create --name x" +:+ Py.nl) false in
  let generated := [Example_ "Create" "az vm create --name y" false;
                    Example_ "From an image" "az vm create --name y --image z" true] in
  let out := raw ++ ["  - name: From an image" +:+ Py.nl; "    text: |" +:+ Py.nl;
                     "        az vm create"; " --name y --image z";
                     Py.nl +:+ "    crafted: true"; Py.nl] in
  Yaml.load (Py.join raw) = Returns (HelpDoc (Some [old]))
  ∧ merge_examples Yaml.load "vm create" raw (HelpDoc (Some generated)) raw
    = Returns out
  ∧ ∃ indents written pieces,
      calculate_example_yaml_indent raw = Returns indents
      ∧ written ≡ₚ filter (signature_in "vm create"
                             (λ names, ¬ known "vm create" [old] names)) generated
      ∧ mapM (rendered_example indents.2 "vm create") written = Returns pieces
      ∧ out = raw
              ++ (if bool_decide ([old] = [] ∧ written ≠ [])
                  then [examples_key indents.1] else [])
              ++ concat pieces.
Proof.
  intros raw old generated out.
  assert (Yaml.load (Py.join raw) = Returns (HelpDoc (Some [old]))) as Hdoc
    by (vm_compute; reflexivity).
  assert (merge_examples Yaml.load "vm create" raw (HelpDoc (Some generated)) raw
          = Returns out) as Hout by (vm_compute; reflexivity).
  split; [exact Hdoc|]. split; [exact Hout|].
  exact (merge_examples_writes_each_once Yaml.load "vm create" raw generated raw
           (HelpDoc (Some [old])) out Hdoc Hout).
Defined.

(** ** The exceptions of [merge_examples] *)

Lemma calculate_indent_raises raw e :
  calculate_example_yaml_indent raw = Raises e → e = IndexError ∨ e = AttributeError.
Proof.
  unfold calculate_example_yaml_indent, list_get, indent_width.
  destruct (raw !! 0) as [first|]; simpl; [|intros [= <-]; by left].
  destruct (default _ _) as [idx key].
  destruct (Py.search_non_space key) as [w|]; simpl; [|intros [= <-]; by right].
  destruct (Py.contains key "examples"); [|done].
  destruct (raw !! (idx + 1)) as [next|]; simpl; [|intros [= <-]; by left].
  destruct (Py.search_non_space next) as [w'|]; simpl; [done|intros [= <-]; by right].
Qed.

Lemma rendered_example_raises inner cmd ex e :
  rendered_example inner cmd ex = Raises e → e = ValueError.
Proof.
  unfold rendered_example, parameters_of, Py.index.
  destruct (Py.find _ cmd) as [i|]; simpl; [done|by intros [= <-]].
Qed.

Lemma render_group_raises inner cmd exs e :
  render_group inner cmd exs = Raises e → e = ValueError.
Proof.
  unfold render_group. induction exs as [|ex exs IH]; simpl; [done|].
  destruct (rendered_example inner cmd ex) as [ps|e'] eqn:Hex; simpl.
  - destruct (mapM _ exs) as [pss|e']; simpl in *; [done|].
    intros [= <-]. by apply IH.
  - intros [= <-]. by eapply rendered_example_raises.
Qed.

Lemma mapM_render_group_raises inner cmd (groups : list (list string * list example)) e :
  mapM (λ g, render_group inner cmd g.2) groups = Raises e → e = ValueError.
Proof.
  induction groups as [|g groups IH]; simpl; [done|].
  destruct (render_group inner cmd g.2) as [ps|e'] eqn:Hg; simpl.
  - destruct (mapM _ groups) as [pss|e']; simpl in *; [done|].
    intros [= <-]. by apply IH.
  - intros [= <-]. by eapply render_group_raises.
Qed.

Lemma merge_examples_raises yaml_load cmd raw aladdin_help buffer e :
  merge_examples yaml_load cmd raw aladdin_help buffer = Raises e →
  yaml_load (Py.join raw) = Raises e
  ∨ e = ValueError
  ∨ (calculate_example_yaml_indent raw = Raises e
     ∧ (e = IndexError ∨ e = AttributeError)).
Proof.
  destruct aladdin_help as [[generated|]].
  - rewrite merge_examples_spec.
    destruct (yaml_load _) as [doc|e']; simpl; [|intros [= <-]; by left].
    destruct (format_examples cmd (default _ _)) as [cli|e'] eqn:Hcli; simpl;
      [|intros [= <-]; right; left; by eapply format_examples_from_raises].
    destruct (format_examples cmd generated) as [ala|e'] eqn:Hala; simpl;
      [|intros [= <-]; right; left; by eapply format_examples_from_raises].
    destruct (calculate_example_yaml_indent raw) as [indents|e'] eqn:Hind; simpl;
      [|intros [= <-]; right; right; split; [done|by eapply calculate_indent_raises]].
    destruct (mapM _ _) as [pieces|e'] eqn:Hm; simpl; [done|].
    intros [= <-]. right; left. by eapply mapM_render_group_raises.
  - unfold merge_examples.
    destruct (yaml_load _) as [doc|e']; simpl; [done|intros [= <-]; by left].
Qed.

(** X20: when [merge_examples] raises, either the loader raised on the
    text of the block, or it is a [ValueError] (an example text without the
    command or with an open quote), or it is the [IndexError] or
    [AttributeError] of the indent inference; the buffer operations raise
    nothing. *)
Theorem merge_examples_raises_cases (yaml_load : string → result help_doc)
    (cmd : string) (raw : list string) (aladdin_help : help_doc)
    (buffer : list string) (e : exn) :
  merge_examples yaml_load cmd raw aladdin_help buffer = Raises e →
  yaml_load (Py.join raw) = Raises e
  ∨ e = ValueError
  ∨ (calculate_example_yaml_indent raw = Raises e
     ∧ (e = IndexError ∨ e = AttributeError)).
Proof.
  intros Hm. destruct (merge_examples_raises _ _ _ _ _ _ Hm) as [Hy|[->|Hind]].
  - by left.
  - right. by left.
  - right. by right.
Qed.

Lemma merge_examples_raises_cases_witness :
  let raw := ["   "] in
  let generated := [Example_ "Create" "az vm create --name y" false] in
  let loaded (_ : string) := Returns (HelpDoc None) in
  merge_examples loaded "vm create" raw (HelpDoc (Some generated)) raw
  = Raises AttributeError
  ∧ (loaded (Py.join raw) = Raises AttributeError
     ∨ AttributeError = ValueError
     ∨ (calculate_example_yaml_indent raw = Raises AttributeError
        ∧ (AttributeError = IndexError ∨ AttributeError = AttributeError))).
Proof.
  intros raw generated loaded.
  assert (merge_examples loaded "vm create" raw (HelpDoc (Some generated)) raw
          = Raises AttributeError) as Hm by reflexivity.
  split; [exact Hm|].
  exact (merge_examples_raises_cases loaded "vm create" raw
           (HelpDoc (Some generated)) raw AttributeError Hm).
Defined.

(** ** More on [merge] *)

Lemma no_newline_app s t : no_newline (s +:+ t) = no_newline s && no_newline t.
Proof.
  induction s as [|c s IH]; [done|]. rewrite app_cons. simpl.
  by rewrite IH, andb_assoc.
Qed.

(** A newline of a text stands after every front part without one. *)
Lemma newline_not_before s b a c :
  no_newline s = true → s +:+ b = a +:+ Py.nl +:+ c → Py.len s ≤ Py.len a.
Proof.
  unfold Py.len. revert a. induction s as [|x s IH]; intros a Hs Heq; [simpl; lia|].
  simpl in Hs. apply andb_prop in Hs as [Hx Hs]. destruct a as [|y a].
  - rewrite app_nil_l in Heq. unfold Py.nl in Heq. rewrite !app_cons in Heq.
    injection Heq as -> _. done.
  - rewrite !app_cons in Heq. injection Heq as _ Heq. simpl.
    apply le_n_S. by apply IH.
Qed.

Lemma helps_close_newline :
  helps_close = ("'] = " +:+ Py.dq +:+ Py.dq +:+ Py.dq) +:+ Py.nl.
Proof. reflexivity. Qed.

Lemma lazy_group_unfold s :
  lazy_group s
  = if String.prefix helps_close s then Some EmptyString
    else match s with
         | EmptyString => None
         | String c s' =>
             if Ascii.eqb c "010" then None else String c <$> lazy_group s'
         end.
Proof. by destruct s. Qed.

Lemma search_helps_unfold line :
  search_helps line
  = match (if String.prefix helps_open line
           then lazy_group (Py.slice_from (Py.len helps_open) line) else None) with
    | Some g => Some g
    | None =>
        match line with
        | EmptyString => None
        | String _ line' => search_helps line'
        end
    end.
Proof. by destruct line. Qed.

Lemma lazy_group_self g :
  no_newline g = true → lazy_group (g +:+ helps_close) = Some g.
Proof.
  induction g as [|c g IH]; intros Hg; [reflexivity|].
  rewrite lazy_group_unfold.
  destruct (String.prefix helps_close (String c g +:+ helps_close)) eqn:Hp.
  - apply prefix_spec in Hp as [post Hp]. exfalso.
    rewrite helps_close_newline, <-str_app_assoc, (str_app_assoc _ Py.nl post) in Hp.
    apply newline_not_before in Hp.
    + rewrite len_app in Hp. unfold Py.len in Hp. simpl in Hp. lia.
    + by rewrite no_newline_app, Hg.
  - rewrite app_cons. simpl in Hg. apply andb_prop in Hg as [Hc Hg].
    apply negb_true_iff in Hc. by rewrite Hc, (IH Hg).
Qed.

Lemma search_helps_self g :
  no_newline g = true → search_helps (helps_open +:+ g +:+ helps_close) = Some g.
Proof.
  intros Hg. rewrite search_helps_unfold.
  assert (String.prefix helps_open (helps_open +:+ g +:+ helps_close) = true) as ->
    by (apply prefix_spec; by eexists).
  by rewrite slice_from_app, lazy_group_self.
Qed.

Lemma lazy_group_Some s g :
  lazy_group s = Some g → ∃ post, s = g +:+ helps_close +:+ post.
Proof.
  revert g. induction s as [|c s IH]; intros g; rewrite lazy_group_unfold.
  - destruct (String.prefix helps_close "") eqn:Hp; [|done].
    intros [= <-]. by apply prefix_spec in Hp.
  - destruct (String.prefix helps_close (String c s)) eqn:Hp.
    + intros [= <-]. by apply prefix_spec in Hp.
    + destruct (Ascii.eqb c "010"); [done|].
      destruct (lazy_group s) as [g'|]; [|done]. intros [= <-].
      destruct (IH g' eq_refl) as [post ->]. exists post. by rewrite app_cons.
Qed.

Lemma search_helps_Some line g :
  search_helps line = Some g →
  ∃ pre post, line = pre +:+ helps_open +:+ g +:+ helps_close +:+ post.
Proof.
  induction line as [|c line IH]; rewrite search_helps_unfold.
  - destruct (String.prefix helps_open "") eqn:Hp; [|done].
    by apply prefix_spec in Hp as [post Hp].
  - destruct (String.prefix helps_open (String c line)) eqn:Hp.
    + apply prefix_spec in Hp as [rest Hp]. rewrite Hp, slice_from_app.
      destruct (lazy_group rest) as [g'|] eqn:Hg.
      * intros [= ->]. apply lazy_group_Some in Hg as [post ->].
        by exists "", post.
      * rewrite <-Hp. intros (pre & post & ->)%IH.
        exists (String c pre), post. by rewrite app_cons.
    + intros (pre & post & ->)%IH. exists (String c pre), post. by rewrite app_cons.
Qed.

Lemma endswith_unfold s p :
  Py.endswith s p
  = if String.eqb s p then true
    else match s with
         | EmptyString => false
         | String _ s' => Py.endswith s' p
         end.
Proof. by destruct s. Qed.

Lemma endswith_app pre p : Py.endswith (pre +:+ p) p = true.
Proof.
  induction pre as [|c pre IH]; rewrite endswith_unfold.
  - by rewrite app_nil_l, String.eqb_refl.
  - rewrite app_cons. by destruct (String.eqb _ _).
Qed.

Lemma len_nil_inv s : Py.len s = 0 → s = "".
Proof. by destruct s. Qed.

Lemma newline_last body a c :
  no_newline body = true → body +:+ Py.nl = a +:+ Py.nl +:+ c → c = "".
Proof.
  intros Hbody Heq. pose proof (newline_not_before _ _ _ _ Hbody Heq) as Hle.
  apply (f_equal Py.len) in Heq. rewrite !len_app in Heq.
  apply len_nil_inv. lia.
Qed.

(** A whole line in which the pattern of a block start is found ends with
    the end of the pattern. *)
Lemma search_helps_endswith line g :
  full_line line → search_helps line = Some g → Py.endswith line helps_close = true.
Proof.
  intros (body & -> & Hbody) (pre & post & Heq)%search_helps_Some.
  assert (pre +:+ helps_open +:+ g +:+ helps_close +:+ post
          = (pre +:+ helps_open +:+ g +:+ "'] = " +:+ Py.dq +:+ Py.dq +:+ Py.dq)
            +:+ Py.nl +:+ post) as Hassoc
    by (by rewrite helps_close_newline, !str_app_assoc).
  pose proof Heq as Heq'. rewrite Hassoc in Heq'.
  apply newline_last in Heq' as ->; [|done].
  rewrite Heq, str_app_nil_r, <-(str_app_assoc helps_open g helps_close),
    <-(str_app_assoc pre (helps_open +:+ g) helps_close).
  apply endswith_app.
Qed.

Section MoreRuns.
Context (yaml_load : string → result help_doc) (helps : gmap string help_doc).

Local Abbreviation round' := (step yaml_load helps).
Local Abbreviation ends' := (runs yaml_load helps).
Local Abbreviation reaches' := (steps yaml_load helps).

(** The lines before the first one that opens like a block start go into
    the buffer as they are. *)
Lemma outer_plain_lines pre rest buffer :
  Forall (λ l, Py.startswith l helps_open = false) pre →
  reaches' (State (pre ++ rest) buffer Outer) (State rest (buffer ++ pre) Outer).
Proof.
  intros Hpre. revert buffer.
  induction Hpre as [|l pre Hl _ IH]; intros buffer.
  - rewrite app_nil_r. apply steps_refl.
  - eapply steps_step.
    + unfold step. simpl. rewrite Hl. done.
    + rewrite (cons_middle l buffer pre), app_assoc. apply IH.
Qed.

Lemma step_block_start line next rest buffer g :
  Py.startswith line helps_open = true → search_helps line = Some g →
  round' (State (line :: next :: rest) buffer Outer)
  = inl (State rest (buffer ++ [line]) (Inner (Py.strip g) [] next)).
Proof. intros Hs Hg. unfold step. simpl. by rewrite Hs, Hg. Qed.

(** The inner loop over the lines of a block. *)
Lemma inner_reads_body body close rest buffer cmd raw line :
  Forall (λ l, Py.endswith l closing = false) (line :: body) →
  reaches' (State (body ++ close :: rest) buffer (Inner cmd raw line))
    (State rest buffer (Inner cmd (raw ++ line :: body) close)).
Proof.
  revert raw line. induction body as [|l body IH]; intros raw line Hall.
  - apply Forall_cons in Hall as [Hline _].
    eapply steps_step; [by apply step_inner_not_closing|]. simpl. apply steps_refl.
  - apply Forall_cons in Hall as [Hline Hall].
    eapply steps_step; [by apply step_inner_not_closing|]. simpl.
    rewrite (cons_middle line raw (l :: body)), app_assoc. by apply IH.
Qed.

Lemma block_read line body close rest buffer g :
  Py.startswith line helps_open = true → search_helps line = Some g →
  Forall (λ l, Py.endswith l closing = false) body →
  reaches' (State (line :: body ++ close :: rest) buffer Outer)
    (State rest (buffer ++ [line]) (Inner (Py.strip g) body close)).
Proof.
  intros Hs Hg Hbody. destruct body as [|l body].
  - eapply steps_step; [by apply step_block_start|]. apply steps_refl.
  - eapply steps_step; [by apply (step_block_start line l)|].
    apply (inner_reads_body body close rest _ _ [] l Hbody).
Qed.

Lemma run_bound n st :
  (match at_ st with
   | Outer => well_closed (file st) ∧ length (file st) < n
   | Inner _ _ line =>
       well_closed (file st) ∧ Exists is_closing (line :: file st)
       ∧ length (file st) + 1 < n
   end) →
  ∃ r, run yaml_load helps n st = Some r.
Proof.
  revert st. induction n as [|n IH]; intros [file buffer [|cmd raw line]]; simpl.
  - intros [_ ?]; lia.
  - intros (_ & _ & ?); lia.
  - intros [Hw Hlen]. unfold step. simpl.
    destruct file as [|line rest]; [by eexists|]. simpl in Hlen.
    destruct (Py.startswith line helps_open) eqn:Hstart; simpl.
    + destruct (search_helps line) as [g|] eqn:Hg; [|by eexists].
      assert (Exists is_closing rest) as Hex.
      { apply (Hw [] line rest); [done|]. split; [done|by eexists]. }
      destruct rest as [|l rest]; [by apply Exists_nil in Hex|]. simpl.
      apply IH. simpl. split_and!; [|done|simpl in Hlen; lia].
      by apply (well_closed_app [line; l]).
    + apply IH. simpl. split; [by apply (well_closed_app [line])|lia].
  - intros (Hw & Hex & Hlen).
    destruct (Py.endswith line closing) eqn:Hline.
    + destruct (step_inner_closing yaml_load helps file buffer cmd raw line Hline)
        as [(added & -> & _)|(e & -> & _)]; [|by eexists].
      apply IH. simpl. split; [done|lia].
    + rewrite (step_inner_not_closing yaml_load helps
                 (State file buffer (Inner cmd raw line)) cmd raw line eq_refl Hline).
      simpl. apply Exists_cons in Hex as [Hc|Hex];
        [unfold is_closing in Hc; congruence|].
      destruct file as [|l file]; [by apply Exists_nil in Hex|]. simpl.
      apply IH. simpl. split_and!; [|done|simpl in Hlen; lia].
      by apply (well_closed_app [l]).
Qed.

End MoreRuns.

Lemma step_agree yaml_load helps1 helps2 st :
  agree_on helps1 helps2 st → step yaml_load helps1 st = step yaml_load helps2 st.
Proof.
  intros [_ Hin]. destruct st as [file buffer [|cmd raw line]]; [done|].
  unfold step. simpl. by rewrite (Hin cmd raw line eq_refl).
Qed.

Lemma step_agree_on yaml_load helps1 helps2 st st' :
  step yaml_load helps1 st = inl st' →
  agree_on helps1 helps2 st → agree_on helps1 helps2 st'.
Proof.
  intros Hst [Hfile Hin].
  apply step_cases in Hst as
    [(line & tl & Hat & Hf & _ & ->)|
     [(line & tl & g & Hat & Hf & Hstart & Hg & ->)|
      [(cmd & raw & line & Hat & _ & ->)|
       (cmd & raw & line & added & Hat & Hc & -> & _)]]];
    split; simpl; try done.
  - intros l g Hl. apply Hfile. rewrite Hf. by apply list_elem_of_further.
  - intros l g' Hl%readline_subseteq. apply Hfile. rewrite Hf.
    by apply list_elem_of_further.
  - intros ? ? ? [= <- _ _]. apply (Hfile line g); [|done..].
    rewrite Hf. apply list_elem_of_here.
  - intros l g Hl%readline_subseteq. by apply Hfile.
  - intros ? ? ? [= <- _ _]. by eapply Hin.
Qed.

Lemma runs_agree yaml_load helps1 helps2 st r :
  runs yaml_load helps1 st r → agree_on helps1 helps2 st →
  runs yaml_load helps2 st r.
Proof.
  induction 1 as [st r Hst|st st' r Hst _ IH]; intros Hag.
  - apply runs_done. by rewrite <-(step_agree _ _ _ _ Hag).
  - eapply runs_step; [by rewrite <-(step_agree _ _ _ _ Hag)|].
    apply IH. by eapply step_agree_on.
Qed.

(** X14: a line made of the opening of a block start, a name without a
    newline and the end of the pattern is a block start for the name: the
    search finds the name, and the round of the outer loop puts the line in
    the buffer, reads the next line and enters the block of the stripped
    name with an empty body. *)
Theorem start_line_names_command (yaml_load : string → result help_doc)
    (helps : gmap string help_doc) (g next : string) (rest buffer : list string) :
  no_newline g = true →
  let line := helps_open +:+ g +:+ helps_close in
  search_helps line = Some g
  ∧ block_start line
  ∧ step yaml_load helps (State (line :: next :: rest) buffer Outer)
    = inl (State rest (buffer ++ [line]) (Inner (Py.strip g) [] next)).
Proof.
  intros Hg line. pose proof (search_helps_self g Hg) as Hs.
  assert (Py.startswith line helps_open = true) as Hstart
    by (apply prefix_spec; by eexists).
  split_and!; [done|split; [done|by eexists]|by apply step_block_start].
Qed.

Lemma start_line_names_command_witness :
  let line := helps_open +:+ " vm create " +:+ helps_close in
  no_newline " vm create " = true
  ∧ search_helps line = Some " vm create "
  ∧ block_start line
  ∧ step Yaml.load ∅ (State [line; "type: command" +:+ Py.nl; closing] [] Outer)
    = inl (State [closing] ([] ++ [line])
             (Inner (Py.strip " vm create ") [] ("type: command" +:+ Py.nl))).
Proof.
  intros line. split; [reflexivity|].
  exact (start_line_names_command Yaml.load ∅ " vm create "
           ("type: command" +:+ Py.nl) [closing] [] eq_refl).
Defined.

(** X15: when the first line of the file that opens like a block start is
    a whole line that does not end with the end of the pattern, [merge]
    raises [AttributeError]: the search finds nothing. *)
Theorem bad_start_line_raises (yaml_load : string → result help_doc)
    (helps : gmap string help_doc) (pre : list string) (line : string)
    (rest : list string) :
  Forall (λ l, Py.startswith l helps_open = false) pre →
  full_line line →
  Py.startswith line helps_open = true →
  Py.endswith line helps_close = false →
  merge yaml_load helps (pre ++ line :: rest) (Raises AttributeError).
Proof.
  intros Hpre Hfull Hstart Hend. unfold merge, start.
  eapply steps_runs; [by apply outer_plain_lines|].
  apply runs_done. unfold step. simpl. rewrite Hstart. simpl.
  destruct (search_helps line) as [g|] eqn:Hg; [|done].
  apply search_helps_endswith in Hg; [congruence|done].
Qed.

Lemma bad_start_line_raises_witness :
  let pre := ["# help" +:+ Py.nl] in
  let line := "helps['vm create'] = 'Create a VM.'" +:+ Py.nl in
  Forall (λ l, Py.startswith l helps_open = false) pre
  ∧ full_line line
  ∧ Py.startswith line helps_open = true
  ∧ Py.endswith line helps_close = false
  ∧ merge Yaml.load ∅ (pre ++ line :: ["# end" +:+ Py.nl]) (Raises AttributeError).
Proof.
  intros pre line.
  assert (Forall (λ l, Py.startswith l helps_open = false) pre) as Hpre
    by (by repeat constructor).
  assert (full_line line) as Hfull by (by eexists).
  split_and!; [done..|].
  exact (bad_start_line_raises Yaml.load ∅ pre line ["# end" +:+ Py.nl]
           Hpre Hfull eq_refl eq_refl).
Defined.

(** X16: from a block start on, [merge] reads the lines up to the first
    closing line as the body of the block.  For a command without generated
    help the start line, the body and the closing line go into the buffer;
    for a command with generated help [merge_examples] is called with the
    body and with the buffer that ends with the start line and the body,
    the closing line goes after what it returns, and what it raises leaves
    [merge]. *)
Theorem merge_block_rounds (yaml_load : string → result help_doc)
    (helps : gmap string help_doc) (line g : string) (body : list string)
    (close : string) (rest buffer : list string) :
  Py.startswith line helps_open = true →
  search_helps line = Some g →
  Forall (λ l, Py.endswith l closing = false) body →
  is_closing close →
  let st := State (line :: body ++ close :: rest) buffer Outer in
  match helps !! Py.strip g with
  | None =>
      steps yaml_load helps st
        (State rest (buffer ++ [line] ++ body ++ [close]) Outer)
  | Some aladdin_help =>
      match merge_examples yaml_load (Py.strip g) body aladdin_help
              ((buffer ++ [line]) ++ body) with
      | Returns out => steps yaml_load helps st (State rest (out ++ [close]) Outer)
      | Raises e => runs yaml_load helps st (Raises e)
      end
  end.
Proof.
  intros Hstart Hg Hbody Hc st.
  pose proof (block_read yaml_load helps line body close rest buffer g
                Hstart Hg Hbody) as Hread.
  assert (step yaml_load helps
            (State rest (buffer ++ [line]) (Inner (Py.strip g) body close))
          = match helps !! Py.strip g with
            | Some aladdin_help =>
                match merge_examples yaml_load (Py.strip g) body aladdin_help
                        ((buffer ++ [line]) ++ body) with
                | Returns out => inl (State rest (out ++ [close]) Outer)
                | Raises e => inr (Raises e)
                end
            | None => inl (State rest (((buffer ++ [line]) ++ body) ++ [close]) Outer)
            end) as Hstep.
  { unfold step. simpl. by rewrite Hc. }
  destruct (helps !! Py.strip g) as [aladdin_help|].
  - destruct (merge_examples _ _ _ _ _) as [out|e].
    + eapply steps_trans; [exact Hread|].
      eapply steps_step; [exact Hstep|apply steps_refl].
    + eapply steps_runs; [exact Hread|]. by apply runs_done.
  - eapply steps_trans; [exact Hread|].
    eapply steps_step; [exact Hstep|]. rewrite <-!app_assoc. apply steps_refl.
Qed.

Lemma merge_block_rounds_witness :
  let line := helps_open +:+ "vm create" +:+ helps_close in
  let body := ["type: command" +:+ Py.nl] in
  let helps : gmap string help_doc :=
    {[ "vm create" := HelpDoc (Some [Example_ "Create" "az vm create --name x" false]) ]} in
  let out := ["# help" +:+ Py.nl; line; "type: command" +:+ Py.nl;
              "examples:" +:+ Py.nl; "  - name: Create" +:+ Py.nl;
              "    text: |" +:+ Py.nl; "        az vm create"; " --name x"; Py.nl] in
  Py.startswith line helps_open = true
  ∧ search_helps line = Some "vm create"
  ∧ Forall (λ l, Py.endswith l closing = false) body
  ∧ is_closing closing
  ∧ steps Yaml.load helps
      (State (line :: body ++ closing :: ["# end" +:+ Py.nl])
         ["# help" +:+ Py.nl] Outer)
      (State ["# end" +:+ Py.nl] (out ++ [closing]) Outer).
Proof.
  intros line body helps out.
  assert (Forall (λ l, Py.endswith l closing = false) body) as Hbody
    by (by repeat constructor).
  split_and!; [done..|].
  exact (merge_block_rounds Yaml.load helps line "vm create" body closing
           ["# end" +:+ Py.nl] ["# help" +:+ Py.nl] eq_refl eq_refl Hbody eq_refl).
Defined.

(** X17: on a file in which every block start is followed by a closing
    line, [merge] is over after at most one round of its loops for each
    line and one more. *)
Theorem merge_rounds_bound (yaml_load : string → result help_doc)
    (helps : gmap string help_doc) (lines : list string) :
  well_closed lines →
  ∃ r, run yaml_load helps (length lines + 1) (start lines) = Some r
       ∧ merge yaml_load helps lines r.
Proof.
  intros Hw.
  destruct (run_bound yaml_load helps (length lines + 1) (start lines)) as [r Hr].
  { simpl. split; [done|lia]. }
  exists r. split; [done|]. by eapply run_runs.
Qed.

Lemma merge_rounds_bound_witness :
  let lines := [helps_open +:+ "vm create" +:+ helps_close;
                "type: command" +:+ Py.nl; closing; "# end" +:+ Py.nl] in
  well_closed lines
  ∧ ∃ r, run Yaml.load ∅ (length lines + 1) (start lines) = Some r
         ∧ merge Yaml.load ∅ lines r.
Proof.
  intros lines.
  assert (well_closed lines) as Hw.
  { intros pre line post Heq [Hstart _].
    destruct pre as [|l1 [|l2 [|l3 [|l4 pre]]]]; simplify_eq/=.
    - apply Exists_cons_tl, Exists_cons_hd. reflexivity.
    - destruct pre; simplify_eq. }
  split; [exact Hw|].
  exact (merge_rounds_bound Yaml.load ∅ lines Hw).
Defined.

(** X18: [merge] looks up generated help for the commands of the block
    starts of the file only: two collections of generated help that agree
    on these commands give the same result, whatever else they hold. *)
Theorem merge_ignores_other_commands (yaml_load : string → result help_doc)
    (helps1 helps2 : gmap string help_doc) (lines : list string)
    (r : result (list string)) :
  (∀ line g, line ∈ lines → Py.startswith line helps_open = true →
             search_helps line = Some g →
             helps1 !! Py.strip g = helps2 !! Py.strip g) →
  merge yaml_load helps1 lines r ↔ merge yaml_load helps2 lines r.
Proof.
  intros Hag. unfold merge. split; intros Hr; (eapply runs_agree; [exact Hr|]).
  - by split.
  - split; [|done]. simpl. intros line g Hin Hs Hg. symmetry. by eapply Hag.
Qed.

Lemma merge_ignores_other_commands_witness :
  let lines := ["# help" +:+ Py.nl; helps_open +:+ "vm create" +:+ helps_close;
                "type: command" +:+ Py.nl; closing] in
  let create := HelpDoc (Some [Example_ "Create" "az vm create --name x" false]) in
  let list := HelpDoc (Some [Example_ "List" "az vm list --all" false]) in
  let helps1 : gmap string help_doc := {[ "vm create" := create ]} in
  let helps2 : gmap string help_doc := <[ "vm list" := list ]> helps1 in
  let out := ["# help" +:+ Py.nl; helps_open +:+ "vm create" +:+ helps_close;
              "type: command" +:+ Py.nl;
              "examples:" +:+ Py.nl; "  - name: Create" +:+ Py.nl;
              "    text: |" +:+ Py.nl; "        az vm create"; " --name x"; Py.nl;
              closing] in
  (∀ line g, line ∈ lines → Py.startswith line helps_open = true →
             search_helps line = Some g →
             helps1 !! Py.strip g = helps2 !! Py.strip g)
  ∧ merge Yaml.load helps1 lines (Returns out)
  ∧ merge Yaml.load helps2 lines (Returns out).
Proof.
  intros lines create list helps1 helps2 out.
  assert (∀ line g, line ∈ lines → Py.startswith line helps_open = true →
            search_helps line = Some g →
            helps1 !! Py.strip g = helps2 !! Py.strip g) as Hag.
  { intros line g Hin Hstart Hg. unfold lines in Hin.
    apply elem_of_cons in Hin as [->|Hin]; [done|].
    apply elem_of_cons in Hin as [->|Hin].
    - injection Hg as <-. reflexivity.
    - repeat (apply elem_of_cons in Hin as [->|Hin]; [done|]).
      by apply elem_of_nil in Hin. }
  assert (merge Yaml.load helps1 lines (Returns out)) as Hr.
  { apply (run_runs _ _ 10). vm_compute. reflexivity. }
  split; [exact Hag|]. split; [exact Hr|].
  exact (proj1 (merge_ignores_other_commands Yaml.load helps1 helps2 lines
                  (Returns out) Hag) Hr).
Defined.


